(** * Chat com vídeos do YouTube: a model of [app.py]

    The script fetches the transcripts of a list of YouTube links, indexes
    the text, and answers questions by retrieval plus one chat-completion
    call.  This file embeds the script and proves the properties that its
    specification states about it.

    Conventions of the embedding.
    - A Python [str] is the [string] of its UTF-8 text; the literals of the
      script are written as the script has them.
    - A function that can raise returns in [Excecao + A]; statements that
      run inside the Streamlit session live in the monad [M], which threads
      the session, the outside world and the trace of observable events,
      and keeps the state reached when an exception escapes.
    - The collaborators the script only calls (the transcript service, the
      text splitter, the vector index, the chat model) are the fields of
      the class [Colaboradores]. *)

From Stdlib Require Import String Ascii List Arith ZArith Lia Bool DecimalString.
Import ListNotations.
Local Open Scope list_scope.
Local Open Scope string_scope.

(** ** Exceptions

    Every exception of the model is an [Exception], which [except Exception]
    catches; [ErroExterno] stands for whatever a collaborator raises. *)

Inductive Excecao : Type :=
| IndexError
| ValueError (msg : string)
| KeyError (chave : string)
| AttributeError (nome : string)
| ErroExterno (msg : string).

(** [str(e)], as the f-string of the warning renders an exception. *)
Definition exc_str (e : Excecao) : string :=
  match e with
  | IndexError => "list index out of range"
  | ValueError msg => msg
  | KeyError chave => "'" ++ chave ++ "'"
  | AttributeError nome => nome
  | ErroExterno msg => msg
  end.

Definition Res (A : Type) : Type := (Excecao + A)%type.

Definition res_bind {A B : Type} (r : Res A) (f : A -> Res B) : Res B :=
  match r with
  | inl e => inl e
  | inr a => f a
  end.

(** ** Python's [str] and [list] primitives used by the script *)

Module Py.

(** The character [c] as a one-character string. *)
Definition chr (c : ascii) : string := String c EmptyString.

(** [go sep skip cur s]: the scan of [str.split]; [cur] is the piece being
    collected, [skip] the characters of a matched separator still to pass. *)
Fixpoint split_go (sep : string) (skip : nat) (cur s : string) : list string :=
  match s with
  | EmptyString => [cur]
  | String c s' =>
      match skip with
      | S k => split_go sep k cur s'
      | O =>
          if String.prefix sep s
          then cur :: split_go sep (String.length sep - 1) EmptyString s'
          else split_go sep 0 (cur ++ chr c) s'
      end
  end.

(** [s.split(sep)]: an empty separator raises [ValueError]. *)
Definition split (sep s : string) : Res (list string) :=
  match sep with
  | EmptyString => inl (ValueError "empty separator")
  | _ => inr (split_go sep 0 EmptyString s)
  end.

(** [l[i]] with Python's negative indices. *)
Definition index {A : Type} (l : list A) (i : Z) : Res A :=
  let n := Z.of_nat (List.length l) in
  let j := if (i <? 0)%Z then (n + i)%Z else i in
  if ((0 <=? j) && (j <? n))%Z%bool
  then match nth_error l (Z.to_nat j) with
       | Some a => inr a
       | None => inl IndexError
       end
  else inl IndexError.

(** [sep.join(l)]. *)
Definition join (sep : string) (l : list string) : string := String.concat sep l.

(** [enumerate(l, start)]. *)
Fixpoint enumerate {A : Type} (l : list A) (start : nat) : list (nat * A) :=
  match l with
  | [] => []
  | a :: r => (start, a) :: enumerate r (S start)
  end.

(** [l.pop()]: removes and returns the last element. *)
Definition pop {A : Type} (l : list A) : Res (A * list A) :=
  match rev l with
  | [] => inl IndexError
  | a :: r => inr (a, rev r)
  end.

(** [str(n)] for a non-negative [int]. *)
Definition str_of_nat (n : nat) : string := NilEmpty.string_of_uint (Nat.to_uint n).

Definition LF : ascii := ascii_of_nat 10.
Definition CR : ascii := ascii_of_nat 13.

(** One-character line boundaries of [str.splitlines] other than CR:
    LF, VT, FF, FS, GS, RS. *)
Definition quebra_simples (c : ascii) : bool :=
  let n := nat_of_ascii c in
  Nat.eqb n 10 || Nat.eqb n 11 || Nat.eqb n 12
  || Nat.eqb n 28 || Nat.eqb n 29 || Nat.eqb n 30.

(** [s.splitlines()].  Besides the one-character boundaries, CR LF counts
    as one boundary, and so do NEL (C2 85), LS (E2 80 A8) and PS (E2 80 A9)
    in their UTF-8 form.  A final boundary opens no empty last line. *)
Fixpoint splitlines_go (cur s : string) : list string :=
  match s with
  | EmptyString => match cur with EmptyString => [] | _ => [cur] end
  | String c s1 =>
      if Ascii.eqb c CR then
        match s1 with
        | String c2 s2 =>
            if Ascii.eqb c2 LF then cur :: splitlines_go EmptyString s2
            else cur :: splitlines_go EmptyString s1
        | EmptyString => cur :: splitlines_go EmptyString s1
        end
      else if quebra_simples c then cur :: splitlines_go EmptyString s1
      else if Ascii.eqb c (ascii_of_nat 194) then
        match s1 with
        | String c2 s2 =>
            if Ascii.eqb c2 (ascii_of_nat 133) then cur :: splitlines_go EmptyString s2
            else splitlines_go (cur ++ chr c) s1
        | EmptyString => splitlines_go (cur ++ chr c) s1
        end
      else if Ascii.eqb c (ascii_of_nat 226) then
        match s1 with
        | String c2 (String c3 s3) =>
            if Ascii.eqb c2 (ascii_of_nat 128)
               && (Ascii.eqb c3 (ascii_of_nat 168) || Ascii.eqb c3 (ascii_of_nat 169))
            then cur :: splitlines_go EmptyString s3
            else splitlines_go (cur ++ chr c) s1
        | _ => splitlines_go (cur ++ chr c) s1
        end
      else splitlines_go (cur ++ chr c) s1
  end.

Definition splitlines (s : string) : list string := splitlines_go EmptyString s.

(** Keyword arguments of [str.format]. *)
Fixpoint kwarg (nome : string) (kw : list (string * string)) : option string :=
  match kw with
  | [] => None
  | (n, v) :: r => if String.eqb n nome then Some v else kwarg nome r
  end.

(** [template.format] with keyword arguments [kw], for replacement fields that are plain names.
    [campo] is [Some nome] while the scan is inside the braces of a field.
    [{{] and [}}] stand for one brace; a field without a name asks for a
    positional argument, of which there is none. *)
Fixpoint format_go (kw : list (string * string)) (campo : option string)
    (s : string) : Res string :=
  match s with
  | EmptyString =>
      match campo with
      | None => inr EmptyString
      | Some _ => inl (ValueError "expected '}' before end of string")
      end
  | String c s1 =>
      match campo with
      | Some nome =>
          if Ascii.eqb c "}" then
            match nome with
            | EmptyString => inl IndexError
            | _ =>
                match kwarg nome kw with
                | Some v => res_bind (format_go kw None s1) (fun r => inr (v ++ r))
                | None => inl (KeyError nome)
                end
            end
          else if Ascii.eqb c "{" then inl (ValueError "unexpected '{' in field name")
          else format_go kw (Some (nome ++ chr c)) s1
      | None =>
          if Ascii.eqb c "{" then
            match s1 with
            | String c2 s2 =>
                if Ascii.eqb c2 "{"
                then res_bind (format_go kw None s2) (fun r => inr (String c r))
                else format_go kw (Some EmptyString) s1
            | EmptyString => inl (ValueError "Single '{' encountered in format string")
            end
          else if Ascii.eqb c "}" then
            match s1 with
            | String c2 s2 =>
                if Ascii.eqb c2 "}"
                then res_bind (format_go kw None s2) (fun r => inr (String c r))
                else inl (ValueError "Single '}' encountered in format string")
            | EmptyString => inl (ValueError "Single '}' encountered in format string")
            end
          else res_bind (format_go kw None s1) (fun r => inr (String c r))
      end
  end.

Definition format (template : string) (kw : list (string * string)) : Res string :=
  format_go kw None template.

End Py.

(** Line 29: [link.split('v=')[-1].split('&')[0]]. *)
Definition video_id (link : string) : Res string :=
  res_bind (Py.split "v=" link) (fun partes =>
  res_bind (Py.index partes (-1)) (fun ultima =>
  res_bind (Py.split "&" ultima) (fun pedacos =>
  Py.index pedacos 0))).


(** ** Data of the application *)

(** A transcript fragment as the service returns it; of its fields
    (text, start, duration) the script reads only [text], a string. *)
Record Trecho : Type := { text : string }.

(** A retrieved chunk. *)
Record Document : Type := { page_content : string }.

Inductive Papel : Type := AI | Human.

(** A message object.  [oid] is the identity of the object: every call of a
    message constructor allocates a new one. *)
Record Mensagem : Type := { oid : nat; papel : Papel; content : string }.

(** The configuration of the text splitter (lines 44-49). *)
Record ConfigDivisor : Type :=
  { separator : string; chunk_size : nat; chunk_overlap : nat }.

(** The configuration of the embedding model (lines 55-59). *)
Record ConfigEmbeddings : Type :=
  { model_name : string; device : string; normalize_embeddings : bool }.

(** The collaborators the script calls and does not implement.  Each one
    acts on the outside world [World] and may raise. *)
Class Colaboradores : Type :=
  { World : Type;
    Indice : Type;
    (** [YouTubeTranscriptApi.get_transcript(video_id, languages=...)] *)
    get_transcript : string -> list string -> World -> Res (list Trecho) * World;
    (** [CharacterTextSplitter(...).split_text(texto)] *)
    split_text : ConfigDivisor -> string -> World -> Res (list string) * World;
    (** [FAISS.from_texts(pedacos, HuggingFaceEmbeddings(...))] *)
    from_texts : list string -> ConfigEmbeddings -> World -> Res Indice * World;
    (** [base_vetores.similarity_search(pergunta, k=...)] *)
    similarity_search : Indice -> string -> nat -> World -> Res (list Document) * World;
    (** [chat.invoke(mensagens).content] *)
    chat_invoke : list Mensagem -> World -> Res string * World }.

(** What a run of the script shows or asks of its collaborators. *)
Inductive Evento : Type :=
| EvGetTranscript (id : string) (languages : list string)
| EvWarning (texto : string)
| EvSplitText (cfg : ConfigDivisor) (texto : string)
| EvFromTexts (pedacos : list string)
| EvSimilaritySearch (pergunta : string) (k : nat)
| EvChatInvoke (mensagens : list Mensagem)
| EvSuccess (texto : string)
| EvChatMessage (nome : string) (texto : string).

(** [st.session_state]: a key is [None] until the script sets it. *)
Record Sessao {C : Colaboradores} : Type :=
  { historico_chat : option (list Mensagem);
    base_vetores : option (option Indice) }.

Record Estado {C : Colaboradores} : Type :=
  { mundo : World;
    sessao : Sessao;
    eventos : list Evento;
    prox_oid : nat }.

(** The widgets of one run of the script: the text area, the button and the
    chat input ([None] when nothing was submitted). *)
Record Entrada : Type :=
  { links_videos : string;
    botao_processar : bool;
    chat_input : option string }.

(** ** The monad of the script *)

Section Monad.
Context {C : Colaboradores}.

Definition M (A : Type) : Type := Estado -> Res A * Estado.

Definition ret {A : Type} (a : A) : M A := fun s => (inr a, s).

Definition bind {A B : Type} (m : M A) (f : A -> M B) : M B :=
  fun s =>
    match m s with
    | (inl e, s') => (inl e, s')
    | (inr a, s') => f a s'
    end.

Definition raise {A : Type} (e : Excecao) : M A := fun s => (inl e, s).

Definition lift {A : Type} (r : Res A) : M A := fun s => (r, s).

(** [try: corpo / except Exception as e: tratador(e)]. *)
Definition try_except {A : Type} (corpo : M A) (tratador : Excecao -> M A) : M A :=
  fun s =>
    match corpo s with
    | (inl e, s') => tratador e s'
    | (inr a, s') => (inr a, s')
    end.

Definition emitir (ev : Evento) : M unit :=
  fun s =>
    (inr tt, {| mundo := mundo s; sessao := sessao s;
                eventos := (eventos s ++ [ev])%list; prox_oid := prox_oid s |}).

(** A call of a collaborator: it is recorded, then it acts on the world. *)
Definition chamar {A : Type} (ev : Evento) (op : World -> Res A * World) : M A :=
  fun s =>
    let (r, w) := op (mundo s) in
    (r, {| mundo := w; sessao := sessao s;
           eventos := (eventos s ++ [ev])%list; prox_oid := prox_oid s |}).

Definition ler_sessao : M Sessao := fun s => (inr (sessao s), s).

Definition gravar_sessao (x : Sessao) : M unit :=
  fun s =>
    (inr tt, {| mundo := mundo s; sessao := x;
                eventos := eventos s; prox_oid := prox_oid s |}).

(** A message constructor: a new object. *)
Definition nova_mensagem (p : Papel) (c : string) : M Mensagem :=
  fun s =>
    (inr {| oid := prox_oid s; papel := p; content := c |},
     {| mundo := mundo s; sessao := sessao s;
        eventos := eventos s; prox_oid := S (prox_oid s) |}).

End Monad.

Declare Scope app_scope.
Delimit Scope app_scope with app.
Notation "x <- m ;; k" := (bind m (fun x => k))
  (at level 61, m at next level, right associativity) : app_scope.
Notation "m ;; k" := (bind m (fun _ => k))
  (at level 61, right associativity) : app_scope.
Local Open Scope app_scope.

(** ** The script *)

Section App.
Context {C : Colaboradores}.

Definition AIMessage (c : string) : M Mensagem := nova_mensagem AI c.
Definition HumanMessage (c : string) : M Mensagem := nova_mensagem Human c.

(** [st.session_state.historico_chat] *)
Definition ler_historico : M (list Mensagem) :=
  s <- ler_sessao ;;
  match historico_chat s with
  | Some h => ret h
  | None => raise (AttributeError "historico_chat")
  end.

(** [st.session_state.base_vetores] *)
Definition ler_base_vetores : M (option Indice) :=
  s <- ler_sessao ;;
  match base_vetores s with
  | Some b => ret b
  | None => raise (AttributeError "base_vetores")
  end.

Definition gravar_historico (h : list Mensagem) : M unit :=
  s <- ler_sessao ;;
  gravar_sessao {| historico_chat := Some h; base_vetores := base_vetores s |}.

Definition gravar_base_vetores (b : option Indice) : M unit :=
  s <- ler_sessao ;;
  gravar_sessao {| historico_chat := historico_chat s; base_vetores := Some b |}.

(** [st.session_state.historico_chat.append(<constructor call>)]: the
    attribute is read, the argument is built, and the list of the session
    is changed in place. *)
Definition historico_append (construtor : M Mensagem) : M unit :=
  h <- ler_historico ;;
  m <- construtor ;;
  gravar_historico (h ++ [m])%list.

(** [st.session_state.historico_chat.pop()] *)
Definition historico_pop : M Mensagem :=
  h <- ler_historico ;;
  r <- lift (Py.pop h) ;;
  gravar_historico (snd r) ;;
  ret (fst r).

(** Lines 32-34: [for trecho in transcricao: documento += trecho['text'] + ' '].
    With [text] a string the loop cannot raise, so an iteration of the outer
    loop either fails before it adds anything or adds a whole transcript. *)
Fixpoint concatenar_trechos (documento : string) (transcricao : list Trecho) : string :=
  match transcricao with
  | [] => documento
  | trecho :: resto => concatenar_trechos (documento ++ (text trecho ++ " ")) resto
  end.

(** Line 37: the text of the warning. *)
Definition texto_aviso (link : string) (e : Excecao) : string :=
  "Erro ao processar o vídeo: " ++ link ++ ". Erro: " ++ exc_str e.

Definition idiomas : list string := ["pt"; "en"].

(** Lines 26-37, the loop over the links; [documento] is the text gathered
    so far. *)
Fixpoint percorrer_links (links : list string) (documento : string) : M string :=
  match links with
  | [] => ret documento
  | link :: resto =>
      documento' <-
        try_except
          (id <- lift (video_id link) ;;
           transcricao <- chamar (EvGetTranscript id idiomas) (get_transcript id idiomas) ;;
           ret (concatenar_trechos documento transcricao))
          (fun e =>
             emitir (EvWarning (texto_aviso link e)) ;;
             ret documento) ;;
      percorrer_links resto documento'
  end.

(** Lines 22-38. *)
Definition obter_transcricao_youtube (links : list string) : M string :=
  percorrer_links links "".

Definition divisor_texto : ConfigDivisor :=
  {| separator := " "; chunk_size := 500; chunk_overlap := 200 |}.

Definition modelo_embeddings : ConfigEmbeddings :=
  {| model_name := "sentence-transformers/all-MiniLM-L6-v2";
     device := "cpu";
     normalize_embeddings := false |}.

(** Lines 40-63. *)
Definition obter_base_vetores_dos_textos (texto : string) : M Indice :=
  pedacos_documento <- chamar (EvSplitText divisor_texto texto) (split_text divisor_texto texto) ;;
  chamar (EvFromTexts pedacos_documento) (from_texts pedacos_documento modelo_embeddings).

(** Lines 68-79. *)
Definition template : string :=
"
    Use os trechos fornecidos para responder à pergunta do usuário de forma clara e concisa.
    Se necessário, complemente a resposta utilizando o histórico do chat.
    Se não souber a resposta com base nos trechos fornecidos e no histórico do chat, diga que não sabe, sem tentar adivinhar ou inventar informações.
    Se possível, seja direto e objetivo ao responder.

    ### Trechos:
    {fragmentos}

    ### Pergunta:
    {pergunta}
    ".

(** Line 82: one entry of the listing, [f'{indice}. {fragmento.page_content}\n']. *)
Definition entrada_contexto (par : nat * Document) : string :=
  Py.str_of_nat (fst par) ++ ". " ++ page_content (snd par) ++ Py.chr Py.LF.

(** Lines 65-87. *)
Definition montar_prompt (fragmentos : list Document) (pergunta : string) : Res string :=
  let contexto :=
    Py.join (Py.chr Py.LF) (map entrada_contexto (Py.enumerate fragmentos 1)) in
  Py.format template [("fragmentos", contexto); ("pergunta", pergunta)].

Definition saudacao : string := "Olá, sou um bot. Como posso ajudar?".

(** Lines 111-120, the body of the button. *)
Definition processar_videos (links_videos : string) : M unit :=
  historico_append (AIMessage saudacao) ;;
  texto_completo <- obter_transcricao_youtube (Py.splitlines links_videos) ;;
  base <- obter_base_vetores_dos_textos texto_completo ;;
  gravar_base_vetores (Some base) ;;
  emitir (EvSuccess "Vídeos processados com sucesso!").

(** Lines 128-144, one question-answer cycle. *)
Definition responder (base : Indice) (pergunta : string) : M unit :=
  documentos_relevantes <-
    chamar (EvSimilaritySearch pergunta 3) (similarity_search base pergunta 3) ;;
  prompt <- lift (montar_prompt documentos_relevantes pergunta) ;;
  historico_append (HumanMessage prompt) ;;
  h <- ler_historico ;;
  resposta <- chamar (EvChatInvoke h) (chat_invoke h) ;;
  historico_pop ;;
  historico_append (HumanMessage pergunta) ;;
  historico_append (AIMessage resposta).

(** Lines 147-153. *)
Fixpoint exibir (h : list Mensagem) : M unit :=
  match h with
  | [] => ret tt
  | mensagem :: resto =>
      emitir (EvChatMessage (match papel mensagem with AI => "ai" | Human => "human" end)
                            (content mensagem)) ;;
      exibir resto
  end.

(** Lines 89-153, one run of the script. *)
Definition main (e : Entrada) : M unit :=
  s <- ler_sessao ;;
  match historico_chat s with
  | None => gravar_historico []
  | Some _ => ret tt
  end ;;
  s <- ler_sessao ;;
  match base_vetores s with
  | None => gravar_base_vetores None
  | Some _ => ret tt
  end ;;
  (if botao_processar e then processar_videos (links_videos e) else ret tt) ;;
  b <- ler_base_vetores ;;
  match b with
  | Some base =>
      match chat_input e with
      | Some pergunta =>
          if String.eqb pergunta "" then ret tt else responder base pergunta
      | None => ret tt
      end ;;
      h <- ler_historico ;;
      exibir h
  | None => ret tt
  end.

End App.

(** ** Vocabulary of the statements *)

(** [ocorre sep s]: [sep] occurs somewhere in [s]. *)
Fixpoint ocorre (sep s : string) : bool :=
  String.prefix sep s
  || match s with
     | EmptyString => false
     | String _ s' => ocorre sep s'
     end.

(** [antes_de c s]: [s] truncated at its first [c]. *)
Fixpoint antes_de (c : ascii) (s : string) : string :=
  match s with
  | EmptyString => EmptyString
  | String a s' => if Ascii.eqb a c then EmptyString else String a (antes_de c s')
  end.

(** [a] is a contiguous part of [s]. *)
Definition substring_de (a s : string) : Prop :=
  exists antes depois, s = antes ++ a ++ depois.

Section Vocabulario.
Context {C : Colaboradores}.

(** The Conversation State and the Vector Index of a session; a key the
    script has not set yet counts as empty. *)
Definition conversa (s : Estado) : list Mensagem :=
  match historico_chat (sessao s) with
  | Some h => h
  | None => []
  end.

Definition indice (s : Estado) : option Indice :=
  match base_vetores (sessao s) with
  | Some b => b
  | None => None
  end.

(** What the transcript service answers, link after link, from the world
    [w] on: each link with the outcome of its retrieval. *)
Fixpoint respostas (links : list string) (w : World)
  : list (string * Res (list Trecho)) :=
  match links with
  | [] => []
  | link :: resto =>
      match video_id link with
      | inl e => (link, inl e) :: respostas resto w
      | inr id =>
          let (r, w') := get_transcript id idiomas w in
          (link, r) :: respostas resto w'
      end
  end.

(** The world after those answers. *)
Fixpoint mundo_apos (links : list string) (w : World) : World :=
  match links with
  | [] => w
  | link :: resto =>
      match video_id link with
      | inl _ => mundo_apos resto w
      | inr id => mundo_apos resto (snd (get_transcript id idiomas w))
      end
  end.

(** The fragment texts of the links that succeeded, in link order. *)
Fixpoint textos_obtidos (rs : list (string * Res (list Trecho))) : list string :=
  match rs with
  | [] => []
  | (_, inr transcricao) :: resto => (map text transcricao ++ textos_obtidos resto)%list
  | (_, inl _) :: resto => textos_obtidos resto
  end.

(** The links that failed, each with its error, in link order. *)
Fixpoint falhas (rs : list (string * Res (list Trecho))) : list (string * Excecao) :=
  match rs with
  | [] => []
  | (link, inl e) :: resto => (link, e) :: falhas resto
  | (_, inr _) :: resto => falhas resto
  end.

(** Texts laid out one after the other, each followed by one space. *)
Fixpoint cada_um_com_espaco (textos : list string) : string :=
  match textos with
  | [] => ""
  | t :: resto => t ++ " " ++ cada_um_com_espaco resto
  end.

(** The text of one transcript as the fetcher lays it out. *)
Definition texto_da_transcricao (transcricao : list Trecho) : string :=
  cada_um_com_espaco (map text transcricao).

(** The document those answers make: the texts of the transcripts that
    were retrieved, in link order. *)
Fixpoint documento_de (rs : list (string * Res (list Trecho))) : string :=
  match rs with
  | [] => ""
  | (_, inr transcricao) :: resto => texto_da_transcricao transcricao ++ documento_de resto
  | (_, inl _) :: resto => documento_de resto
  end.

(** What the fetcher shows and asks along the list of links: one call of
    the service per link, followed by a warning when the link failed. *)
Fixpoint rastro_busca (links : list string) (w : World) : list Evento :=
  match links with
  | [] => []
  | link :: resto =>
      match video_id link with
      | inl e => EvWarning (texto_aviso link e) :: rastro_busca resto w
      | inr id =>
          let (r, w') := get_transcript id idiomas w in
          (EvGetTranscript id idiomas
           :: match r with
              | inl e => [EvWarning (texto_aviso link e)]
              | inr _ => []
              end
           ++ rastro_busca resto w')%list
      end
  end.

(** The warnings of a trace, in order. *)
Fixpoint avisos (evs : list Evento) : list string :=
  match evs with
  | [] => []
  | EvWarning texto :: resto => texto :: avisos resto
  | _ :: resto => avisos resto
  end.

(** The calls of the transcript service in a trace, in order. *)
Fixpoint consultas (evs : list Evento) : list string :=
  match evs with
  | [] => []
  | EvGetTranscript id _ :: resto => id :: consultas resto
  | _ :: resto => consultas resto
  end.

(** An event that only shows a chat bubble. *)
Definition so_exibe (ev : Evento) : Prop :=
  match ev with
  | EvChatMessage _ _ => True
  | _ => False
  end.

(** The numbered listing of the chunks from number [n] on: each entry is
    the number, a dot, a space, the chunk text and a newline; consecutive
    entries are separated by one more newline. *)
Fixpoint listagem (n : nat) (fragmentos : list Document) : string :=
  match fragmentos with
  | [] => ""
  | f :: resto =>
      Py.str_of_nat n ++ ". " ++ page_content f ++ Py.chr Py.LF
      ++ match resto with
         | [] => ""
         | _ :: _ => Py.chr Py.LF ++ listagem (S n) resto
         end
  end.

(** The three fixed parts of the template, around its two fields. *)
Definition template_inicio : string :=
"
    Use os trechos fornecidos para responder à pergunta do usuário de forma clara e concisa.
    Se necessário, complemente a resposta utilizando o histórico do chat.
    Se não souber a resposta com base nos trechos fornecidos e no histórico do chat, diga que não sabe, sem tentar adivinhar ou inventar informações.
    Se possível, seja direto e objetivo ao responder.

    ### Trechos:
    ".

Definition template_meio : string :=
"

    ### Pergunta:
    ".

Definition template_fim : string :=
"
    ".

(** The prompt for the chunks [fragmentos] and the question [pergunta]:
    the template with the listing and the question in place of its fields. *)
Definition prompt_de (fragmentos : list Document) (pergunta : string) : string :=
  template_inicio ++ listagem 1 fragmentos ++ template_meio ++ pergunta ++ template_fim.

(** The chat bubbles that show a history. *)
Definition baloes (h : list Mensagem) : list Evento :=
  map (fun m => EvChatMessage (match papel m with AI => "ai" | Human => "human" end)
                              (content m)) h.

(** Every message of [h] was allocated before the state [s]. *)
Definition historico_alocado (s : Estado) (h : list Mensagem) : Prop :=
  Forall (fun m => oid m < prox_oid s) h.

(** The computation [m] keeps the messages of the history allocated. *)
Definition preserva {A : Type} (m : M A) : Prop :=
  forall s, historico_alocado s (conversa s) ->
            historico_alocado (snd (m s)) (conversa (snd (m s))).

(** The state in which a session starts: no key set, nothing shown, no
    message allocated. *)
Definition sessao_nova (w : World) : Estado :=
  {| mundo := w;
     sessao := {| historico_chat := None; base_vetores := None |};
     eventos := [];
     prox_oid := 0 |}.

(** The states a session goes through: runs of the script on any widget
    values, from a new session on. *)
Inductive alcancavel : Estado -> Prop :=
| alc_nova (w : World) : alcancavel (sessao_nova w)
| alc_main (e : Entrada) (s : Estado) : alcancavel s -> alcancavel (snd (main e s)).

End Vocabulario.

(** ** A concrete set of collaborators

    One video, [ABC123], has a transcript of two fragments; every other
    identifier fails.  The world counts the answers the chat model still
    gives before it starts failing. *)

Module Exemplo.

Definition transcricao_ABC123 : list Trecho := [ {| text := "ola" |}; {| text := "mundo" |} ].

Definition colaboradores : Colaboradores :=
  {| World := nat;
     Indice := list string;
     get_transcript := fun id _ w =>
       if String.eqb id "ABC123"
       then (inr transcricao_ABC123, w)
       else (inl (ErroExterno "Could not retrieve a transcript"), w);
     split_text := fun _ texto w => (inr [texto], w);
     from_texts := fun pedacos _ w =>
       match pedacos with
       | [] => (inl IndexError, w)
       | _ :: _ => (inr pedacos, w)
       end;
     similarity_search := fun base _ k w =>
       (inr (map (fun p => {| page_content := p |}) (firstn k base)), w);
     chat_invoke := fun _ w =>
       match w with
       | O => (inl (ErroExterno "rate limit"), O)
       | S n => (inr "resposta", n)
       end |}.

(** A new session: no key set, nothing shown, [respostas_chat] answers of
    the chat model available. *)
Definition inicial (respostas_chat : nat) : @Estado colaboradores :=
  Build_Estado colaboradores respostas_chat
    (Build_Sessao colaboradores None None) [] 0.

Definition link_bom : string := "https://www.youtube.com/watch?v=ABC123&t=5".
Definition link_ruim : string := "https://www.youtube.com/watch?v=XYZ".

(** The state after running the script once on [s]. *)
Definition apos (e : Entrada) (s : @Estado colaboradores) : @Estado colaboradores :=
  snd (main e s).

Definition clicar_processar (links : string) : Entrada :=
  {| links_videos := links; botao_processar := true; chat_input := None |}.

Definition perguntar (pergunta : string) : Entrada :=
  {| links_videos := ""; botao_processar := false; chat_input := Some pergunta |}.

(** The session after the button was pressed once on [link_bom], with
    [n] chat answers available. *)
Definition processada (n : nat) : @Estado colaboradores :=
  apos (clicar_processar link_bom) (inicial n).

(** The greeting message allocated as object [i]. *)
Definition saudacao_de (i : nat) : Mensagem :=
  {| oid := i; papel := AI; content := saudacao |}.

End Exemplo.

(** ** Vocabulary of the further properties *)

(** A line of the text area: it holds neither LF nor CR. *)
Definition sem_quebra (l : string) : Prop :=
  ocorre (Py.chr Py.LF) l = false /\ ocorre (Py.chr Py.CR) l = false.

(** A call of the transcript service asks for Portuguese, then English. *)
Definition pede_pt_en (ev : Evento) : Prop :=
  match ev with
  | EvGetTranscript _ languages => languages = ["pt"; "en"]
  | _ => True
  end.

(** An event that neither reports success nor shows a chat bubble. *)
Definition nem_sucesso_nem_balao (ev : Evento) : Prop :=
  match ev with
  | EvSuccess _ | EvChatMessage _ _ => False
  | _ => True
  end.

(** The calls of the chat model in a trace. *)
Fixpoint chamadas_chat (evs : list Evento) : nat :=
  match evs with
  | [] => 0
  | EvChatInvoke _ :: resto => S (chamadas_chat resto)
  | _ :: resto => chamadas_chat resto
  end.

(** The searches of the index in a trace. *)
Fixpoint chamadas_busca (evs : list Evento) : nat :=
  match evs with
  | [] => 0
  | EvSimilaritySearch _ _ :: resto => S (chamadas_busca resto)
  | _ :: resto => chamadas_busca resto
  end.

Section VocabularioSessao.
Context {C : Colaboradores}.

(** The session once lines 92-96 have set the keys that were missing. *)
Definition inicializada (s : Estado) : Estado :=
  {| mundo := mundo s;
     sessao := {| historico_chat := Some (conversa s); base_vetores := Some (indice s) |};
     eventos := eventos s;
     prox_oid := prox_oid s |}.

(** The greeting opens the conversation: a history that is not empty
    starts with it, and while the history is empty there is no index. *)
Definition saudacao_primeiro (s : Estado) : Prop :=
  match conversa s with
  | [] => indice s = None
  | m :: _ => papel m = AI /\ content m = saudacao
  end.

(** The messages of the history are distinct objects, all allocated. *)
Definition objetos_distintos (s : Estado) : Prop :=
  historico_alocado s (conversa s) /\ NoDup (map oid (conversa s)).

(** The computation [m] keeps the property [I] of the state. *)
Definition mantem {A : Type} (I : Estado -> Prop) (m : M A) : Prop :=
  forall s, I s -> I (snd (m s)).

(** The state [s] with the world [w] and the events [evs] added to its
    trace. *)
Definition avancar (s : Estado) (w : World) (evs : list Evento) : Estado :=
  {| mundo := w; sessao := sessao s;
     eventos := (eventos s ++ evs)%list; prox_oid := prox_oid s |}.

End VocabularioSessao.

(** ** A second set of collaborators, with failures

    As [Exemplo], but the splitter returns no chunk for the empty document,
    the index cannot be built from no chunk, and the search fails on the
    question [falha]. *)

Module Exemplo2.

Definition colaboradores : Colaboradores :=
  {| World := nat;
     Indice := list string;
     get_transcript := fun id _ w =>
       if String.eqb id "ABC123"
       then (inr Exemplo.transcricao_ABC123, w)
       else (inl (ErroExterno "Could not retrieve a transcript"), w);
     split_text := fun _ texto w =>
       match texto with
       | EmptyString => (inr [], w)
       | _ => (inr [texto], w)
       end;
     from_texts := fun pedacos _ w =>
       match pedacos with
       | [] => (inl IndexError, w)
       | _ :: _ => (inr pedacos, w)
       end;
     similarity_search := fun base pergunta k w =>
       if String.eqb pergunta "falha"
       then (inl (ErroExterno "search failed"), w)
       else (inr (map (fun p => {| page_content := p |}) (firstn k base)), w);
     chat_invoke := fun _ w =>
       match w with
       | O => (inl (ErroExterno "rate limit"), O)
       | S n => (inr "resposta", n)
       end |}.

Definition inicial (respostas_chat : nat) : @Estado colaboradores :=
  Build_Estado colaboradores respostas_chat
    (Build_Sessao colaboradores None None) [] 0.

(** The session after the button was pressed once on [Exemplo.link_bom]. *)
Definition processada (n : nat) : @Estado colaboradores :=
  snd (main (Exemplo.clicar_processar Exemplo.link_bom) (inicial n)).

End Exemplo2.

(** * Properties *)

(** ** Facts about the Python primitives *)

Module PyFacts.

Lemma append_nil_r (s : string) : s ++ "" = s.
Proof. induction s as [|c s IH]; simpl; [reflexivity | now rewrite IH]. Qed.

Lemma append_assoc (a b c : string) : (a ++ b) ++ c = a ++ (b ++ c).
Proof. induction a as [|x a IH]; simpl; [reflexivity | now rewrite IH]. Qed.

Lemma length_append (a b : string) :
  String.length (a ++ b) = String.length a + String.length b.
Proof. induction a as [|x a IH]; simpl; [reflexivity | now rewrite IH]. Qed.

Lemma prefix_nil (s : string) : String.prefix "" s = true.
Proof. destruct s; reflexivity. Qed.

Lemma prefix_cons (a b : ascii) (s1 s2 : string) :
  String.prefix (String a s1) (String b s2)
  = if ascii_dec a b then String.prefix s1 s2 else false.
Proof. reflexivity. Qed.

(** The characters of a matched separator are passed over. *)
Lemma split_go_skip (sep : string) (x resto cur : string) :
  Py.split_go sep (String.length x) cur (x ++ resto) = Py.split_go sep 0 cur resto.
Proof.
  induction x as [|c x IH]; simpl; [reflexivity | exact IH].
Qed.

(** Without an occurrence of the separator there is one piece. *)
Lemma split_go_sem_ocorrencia (sep : string) :
  forall s cur, ocorre sep s = false -> Py.split_go sep 0 cur s = [cur ++ s].
Proof.
  induction s as [|c s IH]; intros cur H.
  - simpl. now rewrite append_nil_r.
  - cbn [ocorre] in H. apply orb_false_iff in H as [Hp Ho].
    cbn [Py.split_go]. rewrite Hp. rewrite (IH _ Ho).
    now rewrite append_assoc.
Qed.

Lemma split_go_nao_vazia (sep : string) :
  forall s skip cur, Py.split_go sep skip cur s <> [].
Proof.
  induction s as [|c s IH]; intros skip cur; cbn [Py.split_go].
  - discriminate.
  - destruct skip; [|apply IH].
    destruct (String.prefix sep (String c s)); [discriminate | apply IH].
Qed.

Lemma index_ultimo {A : Type} (l : list A) (x : A) :
  Py.index (l ++ [x])%list (-1) = inr x.
Proof.
  unfold Py.index. rewrite length_app. cbn [List.length].
  replace ((-1 <? 0)%Z) with true by reflexivity.
  set (n := Z.of_nat (List.length l + 1)).
  assert (Hn : (n = Z.of_nat (List.length l) + 1)%Z) by (unfold n; lia).
  replace ((0 <=? n + -1)%Z && (n + -1 <? n)%Z)%bool with true
    by (symmetry; apply andb_true_iff; split; [apply Z.leb_le | apply Z.ltb_lt]; lia).
  replace (Z.to_nat (n + -1)) with (List.length l) by lia.
  now rewrite nth_error_app2, Nat.sub_diag by lia.
Qed.

Lemma index_primeiro {A : Type} (l : list A) (x : A) :
  Py.index (x :: l) 0 = inr x.
Proof.
  unfold Py.index. cbn [List.length].
  replace ((0 <? 0)%Z) with false by reflexivity.
  replace ((0 <=? 0)%Z && (0 <? Z.of_nat (S (List.length l)))%Z)%bool with true
    by (symmetry; apply andb_true_iff; split; [apply Z.leb_le | apply Z.ltb_lt]; lia).
  reflexivity.
Qed.

(** The last piece of a split at [v=] is what follows the last [v=]. *)
Lemma split_v_ultima (resto : string) :
  ocorre "v=" resto = false ->
  forall pre skip cur,
    skip <= String.length pre ->
    exists l, Py.split_go "v=" skip cur (pre ++ "v=" ++ resto) = (l ++ [resto])%list.
Proof.
  intros Hr. induction pre as [|c pre IH]; intros skip cur Hs.
  - assert (skip = 0) by (simpl in Hs; lia). subst skip.
    assert (Hp : String.prefix "v=" (String "v" (String "=" resto)) = true)
      by (destruct resto; reflexivity).
    exists [cur]. change ("" ++ "v=" ++ resto) with (String "v" (String "=" resto)).
    cbn [Py.split_go]. rewrite Hp. cbn [String.length Nat.sub Py.split_go].
    now rewrite (split_go_sem_ocorrencia "v=" resto "" Hr).
  - change (String c pre ++ "v=" ++ resto) with (String c (pre ++ "v=" ++ resto)).
    cbn [Py.split_go]. destruct skip as [|k].
    + destruct (String.prefix "v=" (String c (pre ++ "v=" ++ resto))) eqn:Hp.
      * destruct pre as [|c2 pre].
        { exfalso. change ("" ++ "v=" ++ resto) with (String "v" (String "=" resto)) in Hp.
          rewrite !prefix_cons in Hp.
          destruct (ascii_dec "v" c); [|discriminate].
          destruct (ascii_dec "=" "v") as [E|E]; [discriminate E | discriminate Hp]. }
        destruct (IH 1 "" ltac:(simpl; lia)) as [l Hl].
        exists (cur :: l). change (String.length "v=" - 1) with 1. now rewrite Hl.
      * apply IH. lia.
    + apply IH. simpl in Hs. lia.
Qed.

(** The first piece of a split at [&] is what precedes the first [&]. *)
Lemma split_e_primeira :
  forall s cur, exists l, Py.split_go "&" 0 cur s = (cur ++ antes_de "&" s) :: l.
Proof.
  induction s as [|c s IH]; intros cur.
  - exists []. cbn. now rewrite append_nil_r.
  - cbn [Py.split_go antes_de]. rewrite prefix_cons, prefix_nil.
    destruct (ascii_dec "&" c) as [E|E].
    + subst c. rewrite Ascii.eqb_refl. exists (Py.split_go "&" 0 "" s).
      cbn [String.length Nat.sub]. now rewrite append_nil_r.
    + assert (Ascii.eqb c "&" = false) as -> by (apply Ascii.eqb_neq; congruence).
      destruct (IH (cur ++ Py.chr c)) as [l Hl]. exists l.
      rewrite Hl. now rewrite append_assoc.
Qed.

Lemma antes_de_sem_ocorrencia (c : ascii) :
  forall s, ocorre (Py.chr c) s = false -> antes_de c s = s.
Proof.
  induction s as [|a s IH]; intros H; [reflexivity|].
  cbn [ocorre] in H. apply orb_false_iff in H as [Hp Ho].
  cbn [antes_de]. unfold Py.chr in Hp. rewrite prefix_cons, prefix_nil in Hp.
  destruct (ascii_dec c a) as [E|E].
  - discriminate.
  - assert (Ascii.eqb a c = false) as -> by (apply Ascii.eqb_neq; congruence).
    now rewrite (IH Ho).
Qed.

End PyFacts.

(** ** Identifier extraction *)

Section Identificador.
Import PyFacts.

(** The identifier is what follows the last [v=], up to the first [&]. *)
Lemma video_id_apos_ultimo_v (pre resto : string) :
  ocorre "v=" resto = false ->
  video_id (pre ++ "v=" ++ resto) = inr (antes_de "&" resto).
Proof.
  intros Hr. unfold video_id, Py.split.
  destruct (split_v_ultima resto Hr pre 0 "" (Nat.le_0_l _)) as [l Hl].
  cbn [res_bind]. rewrite Hl, index_ultimo. cbn [res_bind].
  destruct (split_e_primeira resto "") as [l' Hl'].
  rewrite Hl'. now rewrite index_primeiro.
Qed.

(** Without any [v=] the whole link takes the place of that rest. *)
Lemma video_id_sem_v (link : string) :
  ocorre "v=" link = false ->
  video_id link = inr (antes_de "&" link).
Proof.
  intros Hl. unfold video_id, Py.split. cbn [res_bind].
  rewrite (split_go_sem_ocorrencia "v=" link "" Hl).
  cbn [String.append].
  rewrite (index_ultimo [] link : Py.index [link] (-1) = inr link). cbn [res_bind].
  destruct (split_e_primeira link "") as [l' Hl'].
  rewrite Hl'. now rewrite index_primeiro.
Qed.

(** A link that holds [v=] has a last one. *)
Lemma ultimo_v_existe (link : string) :
  ocorre "v=" link = true ->
  exists pre resto, link = pre ++ "v=" ++ resto /\ ocorre "v=" resto = false.
Proof.
  induction link as [|c link IH]; intros H; [discriminate H|].
  cbn [ocorre] in H. destruct (ocorre "v=" link) eqn:Ho.
  - destruct (IH eq_refl) as (pre & resto & -> & Hr).
    exists (String c pre), resto. split; [reflexivity | exact Hr].
  - rewrite orb_false_r in H.
    destruct link as [|c2 link]; rewrite !prefix_cons in H.
    + destruct (ascii_dec "v" c); discriminate H.
    + destruct (ascii_dec "v" c) as [<-|]; [|discriminate H].
      destruct (ascii_dec "=" c2) as [<-|]; [|discriminate H].
      exists "", link. split; [reflexivity|].
      cbn [ocorre] in Ho. now apply orb_false_iff in Ho.
Qed.

(** Extraction never raises. *)
Lemma video_id_total (link : string) : exists id, video_id link = inr id.
Proof.
  unfold video_id, Py.split. cbn [res_bind].
  destruct (exists_last (split_go_nao_vazia "v=" link 0 "")) as (l & ultima & ->).
  rewrite index_ultimo. cbn [res_bind].
  destruct (split_e_primeira ultima "") as [l' Hl'].
  rewrite Hl', index_primeiro. eauto.
Qed.

End Identificador.

(** ** The transcript fetcher *)

Section Busca.
Context {C : Colaboradores}.
Import PyFacts.

Lemma concatenar_trechos_texto (transcricao : list Trecho) :
  forall documento,
    concatenar_trechos documento transcricao
    = documento ++ texto_da_transcricao transcricao.
Proof.
  unfold texto_da_transcricao.
  induction transcricao as [|t r IH]; intros documento; cbn [concatenar_trechos map cada_um_com_espaco].
  - now rewrite append_nil_r.
  - rewrite IH. now rewrite !append_assoc.
Qed.

(** The loop over the links never raises; it returns the text gathered so
    far followed by the document of the answers, leaves the session alone,
    and adds its calls and warnings to the trace. *)
Lemma percorrer_links_run (links : list string) :
  forall documento s,
    percorrer_links links documento s
    = (inr (documento ++ documento_de (respostas links (mundo s))),
       {| mundo := mundo_apos links (mundo s);
          sessao := sessao s;
          eventos := (eventos s ++ rastro_busca links (mundo s))%list;
          prox_oid := prox_oid s |}).
Proof.
  induction links as [|link resto IH]; intros documento s.
  - cbn. rewrite append_nil_r, app_nil_r. now destruct s.
  - cbn [percorrer_links respostas mundo_apos rastro_busca].
    unfold bind at 1. unfold try_except, bind, lift, chamar, emitir, ret.
    destruct (video_id link) as [e|id].
    + rewrite IH. cbn. now rewrite <- app_assoc.
    + destruct (get_transcript id idiomas (mundo s)) as [[e|t] w'].
      * rewrite IH. cbn. now rewrite <- !app_assoc.
      * rewrite IH. cbn. rewrite concatenar_trechos_texto.
        now rewrite append_assoc, <- !app_assoc.
Qed.

Lemma obter_transcricao_youtube_run (links : list string) (s : Estado) :
  obter_transcricao_youtube links s
  = (inr (documento_de (respostas links (mundo s))),
     {| mundo := mundo_apos links (mundo s);
        sessao := sessao s;
        eventos := (eventos s ++ rastro_busca links (mundo s))%list;
        prox_oid := prox_oid s |}).
Proof. unfold obter_transcricao_youtube. now rewrite percorrer_links_run. Qed.

End Busca.

(** ** The prompt assembler *)

Section Prompt.
Context {C : Colaboradores}.
Import PyFacts.

Lemma template_partes :
  template = template_inicio ++ "{fragmentos}" ++ template_meio ++ "{pergunta}" ++ template_fim.
Proof. reflexivity. Qed.

Lemma contexto_listagem (fragmentos : list Document) :
  forall n,
    Py.join (Py.chr Py.LF) (map entrada_contexto (Py.enumerate fragmentos n))
    = listagem n fragmentos.
Proof.
  unfold Py.join.
  induction fragmentos as [|f resto IH]; intros n; [reflexivity|].
  destruct resto as [|g resto].
  - cbn. unfold entrada_contexto. cbn [fst snd].
    rewrite ?append_assoc, ?append_nil_r. reflexivity.
  - specialize (IH (S n)).
    cbn [Py.enumerate map String.concat listagem] in *.
    rewrite IH. unfold entrada_contexto. cbn [fst snd].
    now rewrite !append_assoc.
Qed.

Lemma format_template (contexto pergunta : string) :
  Py.format template [("fragmentos", contexto); ("pergunta", pergunta)]
  = inr (template_inicio ++ contexto ++ template_meio ++ pergunta ++ template_fim).
Proof. reflexivity. Qed.

Lemma montar_prompt_ok (fragmentos : list Document) (pergunta : string) :
  montar_prompt fragmentos pergunta = inr (prompt_de fragmentos pergunta).
Proof.
  unfold montar_prompt, prompt_de.
  now rewrite contexto_listagem, format_template.
Qed.

(** The prompt is longer than the question it carries. *)
Lemma prompt_mais_longo (fragmentos : list Document) (pergunta : string) :
  String.length pergunta < String.length (prompt_de fragmentos pergunta).
Proof.
  unfold prompt_de. rewrite !length_append.
  assert (0 < String.length template_inicio) by (cbn; lia). lia.
Qed.

Lemma prompt_difere_da_pergunta (fragmentos : list Document) (pergunta : string) :
  prompt_de fragmentos pergunta <> pergunta.
Proof.
  intros E. pose proof (prompt_mais_longo fragmentos pergunta) as H.
  rewrite E in H. lia.
Qed.

End Prompt.

(** ** One run of the script *)

Section Sessao.
Context {C : Colaboradores}.

Ltac monad_unfold :=
  unfold bind, ret, raise, lift, try_except, emitir, chamar, ler_sessao,
    gravar_sessao, nova_mensagem.

Lemma exibir_run (h : list Mensagem) :
  forall s,
    exibir h s
    = (inr tt,
       {| mundo := mundo s; sessao := sessao s;
          eventos := (eventos s ++ baloes h)%list; prox_oid := prox_oid s |}).
Proof.
  induction h as [|m h IH]; intros s.
  - cbn. rewrite app_nil_r. now destruct s.
  - cbn [exibir baloes map]. unfold bind at 1. unfold emitir.
    rewrite IH. cbn. now rewrite <- app_assoc.
Qed.

Lemma baloes_so_exibem (h : list Mensagem) : Forall so_exibe (baloes h).
Proof. induction h; constructor; [exact I | assumption]. Qed.

Lemma main_pergunta_vazia (links : string) (s : Estado) :
  main {| links_videos := links; botao_processar := false; chat_input := Some "" |} s
  = (inr tt,
     {| mundo := mundo s;
        sessao := {| historico_chat := Some (conversa s); base_vetores := Some (indice s) |};
        eventos := (eventos s ++ match indice s with
                                 | Some _ => baloes (conversa s)
                                 | None => []
                                 end)%list;
        prox_oid := prox_oid s |}).
Proof.
  destruct s as [w [[h|] [[b|]|]] evs n];
    unfold main, ler_historico, ler_base_vetores, gravar_historico, gravar_base_vetores,
      conversa, indice;
    monad_unfold; cbn; rewrite ?exibir_run; cbn; rewrite ?app_nil_r; reflexivity.
Qed.

Lemma pop_snoc {A : Type} (l : list A) (x : A) : Py.pop (l ++ [x])%list = inr (x, l).
Proof. unfold Py.pop. rewrite rev_unit. now rewrite rev_involutive. Qed.

(** A cycle whose retrieval and chat completion both return. *)
Lemma responder_completo (s : Estado) (h : list Mensagem) (base : Indice)
    (pergunta : string) (docs : list Document) (w1 w2 : World) (resposta : string) :
  historico_chat (sessao s) = Some h ->
  similarity_search base pergunta 3 (mundo s) = (inr docs, w1) ->
  chat_invoke
    (h ++ [{| oid := prox_oid s; papel := Human; content := prompt_de docs pergunta |}])%list
    w1 = (inr resposta, w2) ->
  responder base pergunta s
  = (inr tt,
     {| mundo := w2;
        sessao :=
          {| historico_chat :=
               Some (h ++ [ {| oid := S (prox_oid s); papel := Human; content := pergunta |};
                            {| oid := S (S (prox_oid s)); papel := AI; content := resposta |} ])%list;
             base_vetores := base_vetores (sessao s) |};
        eventos :=
          (eventos s
           ++ [ EvSimilaritySearch pergunta 3;
                EvChatInvoke
                  (h ++ [{| oid := prox_oid s; papel := Human;
                            content := prompt_de docs pergunta |}]) ])%list;
        prox_oid := S (S (S (prox_oid s))) |}).
Proof.
  destruct s as [w [hs bs] evs n]. cbn [sessao historico_chat mundo prox_oid eventos base_vetores].
  intros -> Hs Hc.
  unfold responder, historico_append, historico_pop, ler_historico, gravar_historico,
    HumanMessage, AIMessage.
  monad_unfold. cbn -[montar_prompt]. rewrite Hs. rewrite montar_prompt_ok. cbn -[prompt_de].
  rewrite Hc. cbn -[prompt_de]. rewrite pop_snoc. cbn -[prompt_de].
  now rewrite <- !app_assoc.
Qed.

(** A cycle whose chat completion raises. *)
Lemma responder_chat_falha (s : Estado) (h : list Mensagem) (base : Indice)
    (pergunta : string) (docs : list Document) (w1 w2 : World) (e : Excecao) :
  historico_chat (sessao s) = Some h ->
  similarity_search base pergunta 3 (mundo s) = (inr docs, w1) ->
  chat_invoke
    (h ++ [{| oid := prox_oid s; papel := Human; content := prompt_de docs pergunta |}])%list
    w1 = (inl e, w2) ->
  responder base pergunta s
  = (inl e,
     {| mundo := w2;
        sessao :=
          {| historico_chat :=
               Some (h ++ [{| oid := prox_oid s; papel := Human;
                              content := prompt_de docs pergunta |}])%list;
             base_vetores := base_vetores (sessao s) |};
        eventos :=
          (eventos s
           ++ [ EvSimilaritySearch pergunta 3;
                EvChatInvoke
                  (h ++ [{| oid := prox_oid s; papel := Human;
                            content := prompt_de docs pergunta |}]) ])%list;
        prox_oid := S (prox_oid s) |}).
Proof.
  destruct s as [w [hs bs] evs n]. cbn [sessao historico_chat mundo prox_oid eventos base_vetores].
  intros -> Hs Hc.
  unfold responder, historico_append, historico_pop, ler_historico, gravar_historico,
    HumanMessage, AIMessage.
  monad_unfold. cbn -[montar_prompt]. rewrite Hs. rewrite montar_prompt_ok. cbn -[prompt_de].
  rewrite Hc. cbn -[prompt_de]. now rewrite <- !app_assoc.
Qed.

(** A run of the script with a question whose cycle completes. *)
Lemma main_ciclo_completo (links pergunta : string) (s : Estado) (h : list Mensagem)
    (base : Indice) (docs : list Document) (w1 w2 : World) (resposta : string) :
  historico_chat (sessao s) = Some h ->
  base_vetores (sessao s) = Some (Some base) ->
  pergunta <> "" ->
  similarity_search base pergunta 3 (mundo s) = (inr docs, w1) ->
  chat_invoke
    (h ++ [{| oid := prox_oid s; papel := Human; content := prompt_de docs pergunta |}])%list
    w1 = (inr resposta, w2) ->
  main {| links_videos := links; botao_processar := false; chat_input := Some pergunta |} s
  = (inr tt,
     {| mundo := w2;
        sessao :=
          {| historico_chat :=
               Some (h ++ [ {| oid := S (prox_oid s); papel := Human; content := pergunta |};
                            {| oid := S (S (prox_oid s)); papel := AI; content := resposta |} ])%list;
             base_vetores := Some (Some base) |};
        eventos :=
          (eventos s
           ++ [ EvSimilaritySearch pergunta 3;
                EvChatInvoke
                  (h ++ [{| oid := prox_oid s; papel := Human;
                            content := prompt_de docs pergunta |}]) ]
           ++ baloes
                (h ++ [ {| oid := S (prox_oid s); papel := Human; content := pergunta |};
                        {| oid := S (S (prox_oid s)); papel := AI; content := resposta |} ]))%list;
        prox_oid := S (S (S (prox_oid s))) |}).
Proof.
  destruct s as [w [hs bs] evs n]. cbn [sessao historico_chat base_vetores mundo prox_oid eventos].
  intros -> -> Hq Hs Hc.
  unfold main, ler_base_vetores, gravar_historico, gravar_base_vetores.
  monad_unfold. cbn -[responder].
  destruct (String.eqb_spec pergunta "") as [E|_]; [contradiction|].
  erewrite responder_completo by (cbn; eauto).
  unfold ler_historico. monad_unfold. cbn -[baloes prompt_de].
  rewrite exibir_run. cbn -[baloes prompt_de]. now rewrite <- !app_assoc.
Qed.

(** A run of the script with a question whose chat completion raises. *)
Lemma main_chat_falha (links pergunta : string) (s : Estado) (h : list Mensagem)
    (base : Indice) (docs : list Document) (w1 w2 : World) (e : Excecao) :
  historico_chat (sessao s) = Some h ->
  base_vetores (sessao s) = Some (Some base) ->
  pergunta <> "" ->
  similarity_search base pergunta 3 (mundo s) = (inr docs, w1) ->
  chat_invoke
    (h ++ [{| oid := prox_oid s; papel := Human; content := prompt_de docs pergunta |}])%list
    w1 = (inl e, w2) ->
  main {| links_videos := links; botao_processar := false; chat_input := Some pergunta |} s
  = (inl e,
     {| mundo := w2;
        sessao :=
          {| historico_chat :=
               Some (h ++ [{| oid := prox_oid s; papel := Human;
                              content := prompt_de docs pergunta |}])%list;
             base_vetores := Some (Some base) |};
        eventos :=
          (eventos s
           ++ [ EvSimilaritySearch pergunta 3;
                EvChatInvoke
                  (h ++ [{| oid := prox_oid s; papel := Human;
                            content := prompt_de docs pergunta |}]) ])%list;
        prox_oid := S (prox_oid s) |}).
Proof.
  destruct s as [w [hs bs] evs n]. cbn [sessao historico_chat base_vetores mundo prox_oid eventos].
  intros -> -> Hq Hs Hc.
  unfold main, ler_base_vetores, gravar_historico, gravar_base_vetores.
  monad_unfold. cbn -[responder].
  destruct (String.eqb_spec pergunta "") as [E|_]; [contradiction|].
  erewrite responder_chat_falha by (cbn; eauto).
  reflexivity.
Qed.

(** A run of the script with the button pressed and no question: whatever
    the collaborators do, the greeting is added to the history. *)
Lemma main_processar_conversa (links : string) (s : Estado) :
  conversa
    (snd (main {| links_videos := links; botao_processar := true; chat_input := None |} s))
  = (conversa s ++ [{| oid := prox_oid s; papel := AI; content := saudacao |}])%list.
Proof.
  destruct s as [w [hs bs] evs n].
  unfold main, processar_videos, historico_append, ler_historico, ler_base_vetores,
    gravar_historico, gravar_base_vetores, obter_base_vetores_dos_textos, AIMessage.
  unfold bind at 1 2 3 4 5 6.
  monad_unfold.
  destruct hs as [h|], bs as [b|]; cbn -[obter_transcricao_youtube saudacao];
    rewrite obter_transcricao_youtube_run; cbn -[saudacao];
    destruct (split_text _ _ _) as [[e|pedacos] w1]; cbn -[saudacao]; try reflexivity;
    destruct (from_texts _ _ _) as [[e|base] w2]; cbn -[saudacao]; try reflexivity;
    rewrite exibir_run; reflexivity.
Qed.

End Sessao.

(** ** The messages of the history stay allocated *)

Section Alocacao.
Context {C : Colaboradores}.

Lemma preserva_ret {A : Type} (a : A) : preserva (ret a).
Proof. intros s H. exact H. Qed.

Lemma preserva_raise {A : Type} (e : Excecao) : preserva (@raise C A e).
Proof. intros s H. exact H. Qed.

Lemma preserva_lift {A : Type} (r : Res A) : preserva (lift r).
Proof. intros s H. exact H. Qed.

Lemma preserva_bind {A B : Type} (m : M A) (f : A -> M B) :
  preserva m -> (forall a, preserva (f a)) -> preserva (bind m f).
Proof.
  intros Hm Hf s H. unfold bind. specialize (Hm s H).
  destruct (m s) as [[e|a] s']; cbn [snd] in *; [exact Hm|].
  apply Hf, Hm.
Qed.

Lemma preserva_try_except {A : Type} (corpo : M A) (tratador : Excecao -> M A) :
  preserva corpo -> (forall e, preserva (tratador e)) ->
  preserva (try_except corpo tratador).
Proof.
  intros Hm Hf s H. unfold try_except. specialize (Hm s H).
  destruct (corpo s) as [[e|a] s']; cbn [snd] in *; [|exact Hm].
  apply Hf, Hm.
Qed.

Lemma preserva_emitir (ev : Evento) : preserva (emitir ev).
Proof. intros s H. exact H. Qed.

Lemma preserva_chamar {A : Type} (ev : Evento) (op : World -> Res A * World) :
  preserva (chamar ev op).
Proof. intros s H. unfold chamar. destruct (op (mundo s)). exact H. Qed.

Lemma preserva_ler_historico : preserva ler_historico.
Proof.
  intros s H. unfold ler_historico, bind, ler_sessao.
  destruct (historico_chat (sessao s)); exact H.
Qed.

Lemma preserva_ler_base_vetores : preserva ler_base_vetores.
Proof.
  intros s H. unfold ler_base_vetores, bind, ler_sessao.
  destruct (base_vetores (sessao s)); exact H.
Qed.

Lemma preserva_gravar_base_vetores (b : option Indice) : preserva (gravar_base_vetores b).
Proof. intros s H. exact H. Qed.

Lemma preserva_historico_vazio : preserva (gravar_historico []).
Proof. intros s H. constructor. Qed.

Lemma preserva_historico_append (p : Papel) (c : string) :
  preserva (historico_append (nova_mensagem p c)).
Proof.
  intros [w [[h|] b] evs n] H; cbn in *; [|exact H].
  unfold historico_alocado in *. cbn in *.
  apply Forall_app. split.
  - eapply Forall_impl; [|exact H]. cbn. intros m Hm. lia.
  - repeat constructor.
Qed.

Lemma preserva_historico_pop : preserva historico_pop.
Proof.
  intros [w [[h|] b] evs n] H; cbn in *; [|exact H].
  unfold historico_alocado, Py.pop in *. cbn in *.
  destruct (rev h) as [|m r] eqn:Hr; cbn; [exact H|].
  assert (Hh : h = (rev r ++ [m])%list)
    by (rewrite <- (rev_involutive h), Hr; reflexivity).
  rewrite Hh in H. apply Forall_app in H. exact (proj1 H).
Qed.

Lemma preserva_percorrer_links (links : list string) :
  forall documento, preserva (percorrer_links links documento).
Proof.
  induction links as [|link resto IH]; intros documento; cbn [percorrer_links].
  - apply preserva_ret.
  - apply preserva_bind; [|exact IH].
    apply preserva_try_except.
    + apply preserva_bind; [apply preserva_lift|]. intros id.
      apply preserva_bind; [apply preserva_chamar|]. intros t. apply preserva_ret.
    + intros e. apply preserva_bind; [apply preserva_emitir|]. intros _. apply preserva_ret.
Qed.

Lemma preserva_exibir (h : list Mensagem) : preserva (exibir h).
Proof.
  induction h as [|m h IH]; cbn [exibir].
  - apply preserva_ret.
  - apply preserva_bind; [apply preserva_emitir | intros _; exact IH].
Qed.

Create HintDb preserva.
#[local] Hint Resolve preserva_ret preserva_raise preserva_lift preserva_emitir
  preserva_chamar preserva_ler_historico preserva_ler_base_vetores
  preserva_gravar_base_vetores preserva_historico_vazio preserva_historico_append
  preserva_historico_pop preserva_percorrer_links preserva_exibir : preserva.

(** Goes through a computation of the script statement by statement. *)
Ltac preserva_passos :=
  repeat first
    [ solve [auto with preserva]
    | apply preserva_bind; [|intros ?]
    | match goal with
      | |- preserva (match ?x with _ => _ end) => destruct x
      | |- preserva (if ?x then _ else _) => destruct x
      end ].

Lemma preserva_processar_videos (links : string) : preserva (processar_videos links).
Proof.
  unfold processar_videos, obter_transcricao_youtube, obter_base_vetores_dos_textos,
    AIMessage.
  preserva_passos.
Qed.

Lemma preserva_responder (base : Indice) (pergunta : string) :
  preserva (responder base pergunta).
Proof.
  unfold responder, HumanMessage, AIMessage. preserva_passos.
Qed.

Lemma preserva_main (e : Entrada) : preserva (main e).
Proof.
  pose proof preserva_processar_videos. pose proof preserva_responder.
  assert (Hl : preserva ler_sessao) by (intros s Hinv; exact Hinv).
  unfold main. preserva_passos.
Qed.

(** In every state a session goes through, the messages of the history
    are allocated objects. *)
Lemma alcancavel_alocado (s : Estado) :
  alcancavel s -> historico_alocado s (conversa s).
Proof.
  induction 1 as [w|e s _ IH].
  - constructor.
  - now apply preserva_main.
Qed.

End Alocacao.

(** ** What the fetcher's answers, trace and document have in common *)

Section Respostas.
Context {C : Colaboradores}.
Import PyFacts.

Lemma avisos_app (a b : list Evento) : avisos (a ++ b) = (avisos a ++ avisos b)%list.
Proof.
  induction a as [|ev a IH]; [reflexivity|].
  destruct ev; cbn; now rewrite IH.
Qed.

Lemma consultas_app (a b : list Evento) :
  consultas (a ++ b) = (consultas a ++ consultas b)%list.
Proof.
  induction a as [|ev a IH]; [reflexivity|].
  destruct ev; cbn; now rewrite IH.
Qed.

(** One warning per failed link, in link order. *)
Lemma avisos_rastro_busca (links : list string) :
  forall w,
    avisos (rastro_busca links w)
    = map (fun f => texto_aviso (fst f) (snd f)) (falhas (respostas links w)).
Proof.
  induction links as [|link resto IH]; intros w; [reflexivity|].
  cbn [rastro_busca respostas].
  destruct (video_id link) as [e|id].
  - cbn. now rewrite IH.
  - destruct (get_transcript id idiomas w) as [[e|t] w']; cbn; now rewrite IH.
Qed.

(** One call of the service per link. *)
Lemma consultas_rastro_busca (links : list string) :
  forall w, List.length (consultas (rastro_busca links w)) = List.length links.
Proof.
  induction links as [|link resto IH]; intros w; [reflexivity|].
  cbn [rastro_busca].
  destruct (video_id_total link) as [id ->].
  destruct (get_transcript id idiomas w) as [[e|t] w']; cbn; now rewrite IH.
Qed.

Lemma respostas_links (links : list string) :
  forall w, map fst (respostas links w) = links.
Proof.
  induction links as [|link resto IH]; intros w; [reflexivity|].
  cbn [respostas].
  destruct (video_id link) as [e|id].
  - cbn. now rewrite IH.
  - destruct (get_transcript id idiomas w) as [r w']. cbn. now rewrite IH.
Qed.

Lemma cada_um_com_espaco_app (a b : list string) :
  cada_um_com_espaco (a ++ b) = cada_um_com_espaco a ++ cada_um_com_espaco b.
Proof.
  induction a as [|t a IH]; [reflexivity|].
  cbn. rewrite IH. now rewrite !append_assoc.
Qed.

Lemma documento_de_textos (rs : list (string * Res (list Trecho))) :
  documento_de rs = cada_um_com_espaco (textos_obtidos rs).
Proof.
  induction rs as [|[link [e|t]] rs IH]; cbn; [reflexivity | assumption |].
  rewrite cada_um_com_espaco_app, IH. reflexivity.
Qed.

Lemma documento_contem (rs : list (string * Res (list Trecho))) (link : string)
    (t : list Trecho) :
  In (link, inr t) rs -> substring_de (texto_da_transcricao t) (documento_de rs).
Proof.
  induction rs as [|[link' r] rs IH]; intros H; [contradiction|].
  destruct H as [H|H].
  - inversion H; subst. exists "", (documento_de rs). reflexivity.
  - destruct (IH H) as (a & b & E). destruct r as [e|t'].
    + exists a, b. exact E.
    + exists (texto_da_transcricao t' ++ a), b. cbn. rewrite E.
      now rewrite append_assoc.
Qed.

Lemma documento_sem_sucesso (rs : list (string * Res (list Trecho))) :
  (forall link r, In (link, r) rs -> exists e, r = inl e) ->
  documento_de rs = "".
Proof.
  induction rs as [|[link r] rs IH]; intros H; [reflexivity|].
  destruct (H link r (or_introl eq_refl)) as [e ->]. cbn.
  apply IH. intros l r' Hin. apply (H l r'). now right.
Qed.

Lemma aviso_nomeia_link (link : string) (e : Excecao) :
  substring_de link (texto_aviso link e).
Proof.
  exists "Erro ao processar o vídeo: ", (". Erro: " ++ exc_str e). reflexivity.
Qed.

End Respostas.

(** * The claims of the specification *)

Section Claims.
Context {C : Colaboradores}.
Import PyFacts.

(** C2.  For every link that holds [v=], the identifier is the substring
    that follows [v=], truncated at the first [&]; when the link holds
    several [v=], it is the last one that counts.  In particular every link
    that ends in [/watch?v=ABC123&t=5] has the identifier [ABC123]. *)
Theorem video_id_apos_v (link : string) :
  ocorre "v=" link = true ->
  (exists pre resto,
     link = pre ++ "v=" ++ resto /\ video_id link = inr (antes_de "&" resto))
  /\ (forall pre resto,
        link = pre ++ "v=" ++ resto -> ocorre "v=" resto = false ->
        video_id link = inr (antes_de "&" resto))
  /\ (forall pre, video_id (pre ++ "/watch?v=ABC123&t=5") = inr "ABC123").
Proof.
  intros Hv. split; [|split].
  - destruct (ultimo_v_existe link Hv) as (pre & resto & -> & Hr).
    exists pre, resto. split; [reflexivity | now apply video_id_apos_ultimo_v].
  - intros pre resto -> Hr. now apply video_id_apos_ultimo_v.
  - intros pre.
    change (pre ++ "/watch?v=ABC123&t=5")
      with (pre ++ "/watch?" ++ "v=" ++ "ABC123&t=5").
    rewrite <- append_assoc.
    now rewrite video_id_apos_ultimo_v.
Qed.

(** C10.  For a link without any [v=], extraction does not fail: the
    identifier is the whole link truncated at the first [&] (the whole link
    when it has no [&] either).  The fetcher then asks the service for that
    identifier, and the link shows up as a failure only if the service
    fails, through the warning of that link. *)
Theorem video_id_link_sem_v (link : string) :
  ocorre "v=" link = false ->
  video_id link = inr (antes_de "&" link)
  /\ (ocorre "&" link = false -> video_id link = inr link)
  /\ forall s : Estado,
       obter_transcricao_youtube [link] s
       = match get_transcript (antes_de "&" link) idiomas (mundo s) with
         | (inr t, w) =>
             (inr (texto_da_transcricao t),
              {| mundo := w; sessao := sessao s;
                 eventos := (eventos s ++ [EvGetTranscript (antes_de "&" link) idiomas])%list;
                 prox_oid := prox_oid s |})
         | (inl e, w) =>
             (inr "",
              {| mundo := w; sessao := sessao s;
                 eventos := (eventos s ++ [ EvGetTranscript (antes_de "&" link) idiomas;
                                            EvWarning (texto_aviso link e) ])%list;
                 prox_oid := prox_oid s |})
         end.
Proof.
  intros Hv. pose proof (video_id_sem_v link Hv) as Hid.
  split; [exact Hid|]. split.
  - intros He. rewrite Hid. f_equal. now apply (antes_de_sem_ocorrencia "&").
  - intros s. rewrite obter_transcricao_youtube_run.
    cbn [respostas mundo_apos rastro_busca]. rewrite Hid.
    destruct (get_transcript (antes_de "&" link) idiomas (mundo s)) as [[e|t] w];
      cbn [documento_de snd app]; [reflexivity|].
    now rewrite append_nil_r.
Qed.

(** C3.  Whatever links fail, the fetcher does not raise.  It asks the
    service once per link, emits exactly one warning per failing link, in
    link order, each naming its link, leaves the session alone, and returns
    a document that contains the text of every link that succeeded. *)
Theorem obter_transcricao_tolera_falhas (links : list string) (s : Estado) :
  let r := obter_transcricao_youtube links s in
  let rs := respostas links (mundo s) in
  map fst rs = links
  /\ (exists documento,
        fst r = inr documento
        /\ forall link t, In (link, inr t) rs ->
             substring_de (texto_da_transcricao t) documento)
  /\ sessao (snd r) = sessao s
  /\ (exists rastro,
        eventos (snd r) = (eventos s ++ rastro)%list
        /\ List.length (consultas rastro) = List.length links
        /\ avisos rastro = map (fun f => texto_aviso (fst f) (snd f)) (falhas rs)
        /\ List.length (avisos rastro) = List.length (falhas rs))
  /\ (forall link e, substring_de link (texto_aviso link e)).
Proof.
  cbv zeta. rewrite obter_transcricao_youtube_run. cbn [fst snd sessao eventos].
  split; [apply respostas_links|]. split.
  { eexists. split; [reflexivity|]. intros link t. apply documento_contem. }
  split; [reflexivity|]. split.
  { exists (rastro_busca links (mundo s)). split; [reflexivity|].
    split; [apply consultas_rastro_busca|].
    rewrite avisos_rastro_busca. split; [reflexivity | apply length_map]. }
  apply aviso_nomeia_link.
Qed.

(** C5, as amended.  The fetcher returns, in link order, every fragment
    text of every link that succeeded, each text followed by one space; when
    no link succeeds it returns the empty string. *)
Theorem obter_transcricao_documento (links : list string) (s : Estado) :
  let rs := respostas links (mundo s) in
  fst (obter_transcricao_youtube links s) = inr (cada_um_com_espaco (textos_obtidos rs))
  /\ ((forall link r, In (link, r) rs -> exists e, r = inl e) ->
      fst (obter_transcricao_youtube links s) = inr "").
Proof.
  cbv zeta. rewrite obter_transcricao_youtube_run. cbn [fst]. split.
  - now rewrite documento_de_textos.
  - intros H. now rewrite documento_sem_sucesso.
Qed.

(** C6.  For all chunks and every question the prompt assembler returns,
    without raising, the template with its two fields replaced: the first by
    the listing of the chunk texts numbered from 1, the second by the
    question as it is. *)
Theorem montar_prompt_preenche_template (fragmentos : list Document) (pergunta : string) :
  montar_prompt fragmentos pergunta
  = inr (template_inicio ++ listagem 1 fragmentos ++ template_meio ++ pergunta ++ template_fim)
  /\ template
     = template_inicio ++ "{fragmentos}" ++ template_meio ++ "{pergunta}" ++ template_fim.
Proof.
  split; [apply montar_prompt_ok | apply template_partes].
Qed.

(** C7.  A run of the script with an empty question returns without
    raising; the Conversation State, the Vector Index, the outside world and
    the allocator are as before, and the run adds nothing to the trace but
    the chat bubbles that show the history: no retrieval, no chat
    completion, no warning. *)
Theorem pergunta_vazia_nao_altera (links : string) (s : Estado) :
  let r := main {| links_videos := links; botao_processar := false;
                   chat_input := Some "" |} s in
  fst r = inr tt
  /\ conversa (snd r) = conversa s
  /\ indice (snd r) = indice s
  /\ mundo (snd r) = mundo s
  /\ prox_oid (snd r) = prox_oid s
  /\ exists exibidos,
       eventos (snd r) = (eventos s ++ exibidos)%list /\ Forall so_exibe exibidos.
Proof.
  cbv zeta. rewrite main_pergunta_vazia. cbn [fst snd mundo prox_oid eventos].
  repeat split.
  eexists. split; [reflexivity|].
  destruct (indice s); [apply baloes_so_exibem | constructor].
Qed.

(** C1.  When a question-answer cycle completes, the Conversation State
    has grown by exactly two messages, the raw question of the user and
    then the answer of the assistant.  The chat model was given the
    history with the assembled Prompt message as its last message, and not
    the raw question; at the end of the cycle that Prompt message is no
    longer in the state, and neither added message is a user message that
    carries the prompt text. *)
Theorem ciclo_acrescenta_pergunta_e_resposta (links pergunta : string) (s : Estado)
    (h : list Mensagem) (base : Indice) (docs : list Document) (w1 w2 : World)
    (resposta : string) :
  let mp := {| oid := prox_oid s; papel := Human; content := prompt_de docs pergunta |} in
  let mq := {| oid := S (prox_oid s); papel := Human; content := pergunta |} in
  let ma := {| oid := S (S (prox_oid s)); papel := AI; content := resposta |} in
  let r := main {| links_videos := links; botao_processar := false;
                   chat_input := Some pergunta |} s in
  historico_chat (sessao s) = Some h ->
  base_vetores (sessao s) = Some (Some base) ->
  historico_alocado s h ->
  pergunta <> "" ->
  similarity_search base pergunta 3 (mundo s) = (inr docs, w1) ->
  chat_invoke (h ++ [mp])%list w1 = (inr resposta, w2) ->
  fst r = inr tt
  /\ conversa (snd r) = (conversa s ++ [mq; ma])%list
  /\ List.length (conversa (snd r)) = List.length (conversa s) + 2
  /\ montar_prompt docs pergunta = inr (content mp)
  /\ In (EvChatInvoke (conversa s ++ [mp])%list) (eventos (snd r))
  /\ ~ In mq (conversa s ++ [mp])%list
  /\ ~ In mp (conversa (snd r))
  /\ (forall m, In m [mq; ma] -> ~ (papel m = Human /\ content m = content mp)).
Proof.
  cbv zeta. intros Hh Hb Hal Hq Hs Hc.
  rewrite (main_ciclo_completo links pergunta s h base docs w1 w2 resposta Hh Hb Hq Hs Hc).
  assert (Hcv : conversa s = h) by (unfold conversa; now rewrite Hh).
  rewrite Hcv. cbn [fst snd eventos content conversa sessao historico_chat].
  assert (Hfresco : forall m k, In m h -> oid m <> k + prox_oid s).
  { intros m k Hin. pose proof (proj1 (Forall_forall _ _) Hal m Hin) as Hlt.
    cbn in Hlt. lia. }
  split; [reflexivity|]. split; [reflexivity|].
  split; [rewrite length_app; reflexivity|].
  split; [apply montar_prompt_ok|].
  split.
  { apply in_or_app. right. apply in_or_app. left. right. left. reflexivity. }
  split.
  { intros Hin. apply in_app_or in Hin as [Hin|[E|[]]].
    - apply (Hfresco _ 1 Hin). reflexivity.
    - inversion E. lia. }
  split.
  { intros Hin. apply in_app_or in Hin as [Hin|[E|[E|[]]]].
    - apply (Hfresco _ 0 Hin). reflexivity.
    - inversion E. lia.
    - inversion E. }
  intros m [<-|[<-|[]]] [Hp Hcont]; cbn in Hp, Hcont.
  - now apply (prompt_difere_da_pergunta docs pergunta).
  - discriminate Hp.
Qed.

(** C9.  When the chat completion raises during a cycle, the run ends with
    that error and the Conversation State is not restored: it is the
    history of before followed by the assembled Prompt message, which is
    its last message; the raw question was not added. *)
Theorem falha_do_chat_deixa_prompt (links pergunta : string) (s : Estado)
    (h : list Mensagem) (base : Indice) (docs : list Document) (w1 w2 : World)
    (e : Excecao) :
  let mp := {| oid := prox_oid s; papel := Human; content := prompt_de docs pergunta |} in
  let r := main {| links_videos := links; botao_processar := false;
                   chat_input := Some pergunta |} s in
  historico_chat (sessao s) = Some h ->
  base_vetores (sessao s) = Some (Some base) ->
  pergunta <> "" ->
  similarity_search base pergunta 3 (mundo s) = (inr docs, w1) ->
  chat_invoke (h ++ [mp])%list w1 = (inl e, w2) ->
  fst r = inl e
  /\ conversa (snd r) = (conversa s ++ [mp])%list
  /\ last (conversa (snd r)) mp = mp
  /\ List.length (conversa (snd r)) = List.length (conversa s) + 1
  /\ montar_prompt docs pergunta = inr (content mp)
  /\ content mp <> pergunta.
Proof.
  cbv zeta. intros Hh Hb Hq Hs Hc.
  rewrite (main_chat_falha links pergunta s h base docs w1 w2 e Hh Hb Hq Hs Hc).
  assert (Hcv : conversa s = h) by (unfold conversa; now rewrite Hh).
  rewrite Hcv. cbn [fst snd content conversa sessao historico_chat].
  split; [reflexivity|]. split; [reflexivity|].
  split; [apply last_last|].
  split; [rewrite length_app; reflexivity|].
  split; [apply montar_prompt_ok | apply prompt_difere_da_pergunta].
Qed.

End Claims.

(** * The claims on the concrete collaborators *)

Section Casos.
Import Exemplo.

Example split_v : Py.split "v=" "av=bv=c" = inr ["a"; "b"; "c"].
Proof. reflexivity. Qed.

Example split_sobreposto : Py.split "aa" "aaa" = inr [""; "a"].
Proof. reflexivity. Qed.

Example split_separador_vazio : Py.split "" "abc" = inl (ValueError "empty separator").
Proof. reflexivity. Qed.

Example splitlines_links :
  Py.splitlines ("a" ++ Py.chr Py.LF ++ "b" ++ Py.chr Py.CR ++ Py.chr Py.LF
                 ++ Py.chr Py.LF ++ "c" ++ Py.chr Py.LF)
  = ["a"; "b"; ""; "c"].
Proof. reflexivity. Qed.

Example video_id_watch :
  video_id "https://www.youtube.com/watch?v=ABC123&t=5" = inr "ABC123".
Proof. reflexivity. Qed.

Example video_id_dois_v : video_id "watch?v=ABC&av=XYZ" = inr "XYZ".
Proof. reflexivity. Qed.

Example listagem_dois :
  listagem 1 [{| page_content := "a" |}; {| page_content := "b" |}]
  = "1. a" ++ Py.chr Py.LF ++ Py.chr Py.LF ++ "2. b" ++ Py.chr Py.LF.
Proof. reflexivity. Qed.

Example format_chaves :
  Py.format "{{{x}}}" [("x", "{y}")] = inr "{{y}}"
  /\ Py.format "{z}" [("x", "1")] = inl (KeyError "z")
  /\ Py.format "a}" [] = inl (ValueError "Single '}' encountered in format string").
Proof. repeat split. Qed.

Example processada_estado :
  processada 1
  = Build_Estado colaboradores 1
      (Build_Sessao colaboradores (Some [saudacao_de 0]) (Some (Some ["ola mundo "])))
      [ EvGetTranscript "ABC123" idiomas;
        EvSplitText divisor_texto "ola mundo ";
        EvFromTexts ["ola mundo "];
        EvSuccess "Vídeos processados com sucesso!";
        EvChatMessage "ai" saudacao ]
      1.
Proof. reflexivity. Qed.

(** C2 at the link of the specification. *)
Lemma video_id_apos_v_exemplo :
  ocorre "v=" link_bom = true
  /\ video_id link_bom = inr "ABC123".
Proof.
  split; [reflexivity|].
  exact (proj1 (proj2 (video_id_apos_v link_bom eq_refl))
           "https://www.youtube.com/watch?" "ABC123&t=5" eq_refl eq_refl).
Defined.

(** C10 at a short link, which has neither [v=] nor [&]. *)
Lemma video_id_link_sem_v_exemplo :
  ocorre "v=" "https://youtu.be/ABC123" = false
  /\ video_id "https://youtu.be/ABC123" = inr "https://youtu.be/ABC123".
Proof.
  split; [reflexivity|].
  exact (proj1 (proj2 (@video_id_link_sem_v colaboradores "https://youtu.be/ABC123" eq_refl)) eq_refl).
Defined.

(** C3 on a failing link followed by a good one. *)
Lemma obter_transcricao_tolera_falhas_exemplo :
  exists rastro,
    eventos (snd (obter_transcricao_youtube [link_ruim; link_bom] (inicial 0)))
    = (eventos (inicial 0) ++ rastro)%list
    /\ List.length (avisos rastro) = 1.
Proof.
  destruct (proj2 (proj2 (proj2
    (@obter_transcricao_tolera_falhas colaboradores [link_ruim; link_bom] (inicial 0)))))
    as [(rastro & Hr & _ & _ & Hn) _].
  exists rastro. split; [exact Hr | exact Hn].
Defined.

(** C5 as stated fails: the document of one good link ends with a space,
    which the space-separated concatenation of its fragment texts has not. *)
Lemma documento_termina_em_espaco :
  fst (obter_transcricao_youtube [link_bom] (inicial 0)) = inr "ola mundo "
  /\ Py.join " " (textos_obtidos (@respostas colaboradores [link_bom] 0)) = "ola mundo"
  /\ fst (obter_transcricao_youtube [link_bom] (inicial 0))
     <> inr (Py.join " " (textos_obtidos (@respostas colaboradores [link_bom] 0))).
Proof.
  split; [reflexivity|]. split; [reflexivity|].
  intros H. vm_compute in H. discriminate H.
Qed.

(** C5 as amended, on a link that fails. *)
Lemma obter_transcricao_documento_exemplo :
  fst (obter_transcricao_youtube [link_ruim] (inicial 0)) = inr "".
Proof.
  apply (proj2 (@obter_transcricao_documento colaboradores [link_ruim] (inicial 0))).
  intros link r [H|[]]. inversion H. eexists. reflexivity.
Defined.

(** C4 fails on the code.  The first press of the button leaves the
    greeting alone in the history; a second press adds a second greeting,
    and a press after a question-answer cycle adds the greeting after the
    messages of that cycle. *)
Theorem processar_de_novo_acrescenta_saudacao :
  conversa (processada 0) = [saudacao_de 0]
  /\ conversa (apos (clicar_processar link_bom) (processada 0))
     = [saudacao_de 0; saudacao_de 1]
  /\ List.length (conversa (apos (clicar_processar link_bom) (processada 0))) = 2
  /\ conversa (apos (clicar_processar link_bom)
                 (apos (perguntar "O que diz?") (processada 1)))
     = [ saudacao_de 0;
         {| oid := 2; papel := Human; content := "O que diz?" |};
         {| oid := 3; papel := AI; content := "resposta" |};
         saudacao_de 4 ].
Proof. repeat split. Qed.

(** C1 on the session of [processada 1]. *)
Lemma ciclo_acrescenta_pergunta_e_resposta_exemplo :
  conversa (apos (perguntar "O que diz?") (processada 1))
  = (conversa (processada 1)
     ++ [ {| oid := 2; papel := Human; content := "O que diz?" |};
          {| oid := 3; papel := AI; content := "resposta" |} ])%list.
Proof.
  refine (proj1 (proj2
    (@ciclo_acrescenta_pergunta_e_resposta colaboradores "" "O que diz?" (processada 1)
       [saudacao_de 0] ["ola mundo "] [{| page_content := "ola mundo " |}] 1 0 "resposta"
       eq_refl eq_refl _ _ eq_refl eq_refl))).
  - repeat constructor.
  - discriminate.
Defined.

(** C9 on the session of [processada 0], where the chat model fails. *)
Lemma falha_do_chat_deixa_prompt_exemplo :
  fst (main (perguntar "O que diz?") (processada 0)) = inl (ErroExterno "rate limit")
  /\ conversa (apos (perguntar "O que diz?") (processada 0))
     = [ saudacao_de 0;
         {| oid := 1; papel := Human;
            content := prompt_de [{| page_content := "ola mundo " |}] "O que diz?" |} ].
Proof.
  destruct (@falha_do_chat_deixa_prompt colaboradores "" "O que diz?" (processada 0)
       [saudacao_de 0] ["ola mundo "] [{| page_content := "ola mundo " |}] 0 0
       (ErroExterno "rate limit") eq_refl eq_refl ltac:(discriminate) eq_refl eq_refl)
    as (H1 & H2 & _).
  split; [exact H1 | exact H2].
Defined.

End Casos.

(** * Further properties of the code *)

(** ** The string primitives of line 29 and line 117 *)

Section Primitivas.
Import PyFacts.

Lemma prefix_decompoe (p : string) :
  forall s, String.prefix p s = true -> exists resto, s = p ++ resto.
Proof.
  induction p as [|a p IH]; intros s H.
  - exists s. reflexivity.
  - destruct s as [|b s]; [discriminate H|].
    rewrite prefix_cons in H. destruct (ascii_dec a b) as [<-|]; [|discriminate H].
    destruct (IH s H) as [resto ->]. exists resto. reflexivity.
Qed.

Lemma concat_cons_nao_vazia (sep x : string) (l : list string) :
  l <> [] -> String.concat sep (x :: l) = x ++ sep ++ String.concat sep l.
Proof. destruct l; [contradiction | reflexivity]. Qed.

(** Joining the pieces of a scan gives back the piece in progress followed
    by the text still to scan. *)
Lemma join_split_go (sep : string) (a : ascii) (sep' : string) :
  sep = String a sep' ->
  forall n s cur,
    String.length s <= n ->
    String.concat sep (Py.split_go sep 0 cur s) = cur ++ s.
Proof.
  intros Hsep. induction n as [|n IH]; intros s cur Hn.
  - destruct s; [|simpl in Hn; lia]. cbn. now rewrite append_nil_r.
  - destruct s as [|c s]; [cbn; now rewrite append_nil_r|].
    cbn [Py.split_go]. destruct (String.prefix sep (String c s)) eqn:Hp.
    + destruct (prefix_decompoe _ _ Hp) as [resto E].
      rewrite Hsep in E. cbn [String.append] in E. inversion E; subst c s.
      replace (String.length sep - 1) with (String.length sep')
        by (rewrite Hsep; simpl; lia).
      rewrite split_go_skip.
      rewrite concat_cons_nao_vazia by apply split_go_nao_vazia.
      rewrite IH.
      * rewrite Hsep. reflexivity.
      * simpl in Hn. rewrite length_append in Hn. lia.
    + rewrite IH by (simpl in Hn; lia).
      now rewrite append_assoc.
Qed.

(** X1.  [sep.join(s.split(sep))] is [s]: splitting loses nothing but the
    separators, and only the empty separator makes [split] raise. *)
Theorem join_split (sep s : string) :
  match Py.split sep s with
  | inr pedacos => Py.join sep pedacos = s /\ pedacos <> [] /\ sep <> ""
  | inl e => sep = "" /\ e = ValueError "empty separator"
  end.
Proof.
  unfold Py.split, Py.join. destruct sep as [|a sep'].
  - split; reflexivity.
  - split; [|split].
    + now rewrite (join_split_go _ a sep' eq_refl (String.length s) s "" (le_n _)).
    + apply split_go_nao_vazia.
    + discriminate.
Qed.

Lemma ocorre_chr_app (x : ascii) (a b : string) :
  ocorre (Py.chr x) (a ++ b) = ocorre (Py.chr x) a || ocorre (Py.chr x) b.
Proof.
  induction a as [|c a IH].
  - reflexivity.
  - cbn [String.append ocorre]. unfold Py.chr at 1 3.
    rewrite !prefix_cons, !prefix_nil, IH.
    destruct (ascii_dec x c); reflexivity.
Qed.

Lemma ocorre_chr_um (x c : ascii) :
  c <> x -> ocorre (Py.chr x) (Py.chr c) = false.
Proof.
  intros H. cbn. destruct (ascii_dec x c); [congruence | reflexivity].
Qed.

Lemma sem_quebra_snoc (cur : string) (c : ascii) :
  sem_quebra cur -> c <> Py.LF -> c <> Py.CR -> sem_quebra (cur ++ Py.chr c).
Proof.
  intros [H1 H2] Hl Hc. split; rewrite ocorre_chr_app.
  - now rewrite H1, ocorre_chr_um.
  - now rewrite H2, ocorre_chr_um.
Qed.

Lemma sem_quebra_vazia : sem_quebra "".
Proof. split; reflexivity. Qed.

Lemma splitlines_go_sem_quebra :
  forall n s cur,
    String.length s <= n -> sem_quebra cur ->
    Forall sem_quebra (Py.splitlines_go cur s).
Proof.
  induction n as [|n IH]; intros s cur Hn Hcur.
  - destruct s; [|simpl in Hn; lia]. cbn. destruct cur; constructor; auto.
  - destruct s as [|c s1]; [cbn; destruct cur; constructor; auto|].
    simpl in Hn. cbn [Py.splitlines_go].
    destruct (Ascii.eqb c Py.CR) eqn:Ecr.
    { destruct s1 as [|c2 s2].
      - constructor; [exact Hcur | apply IH; [simpl; lia | apply sem_quebra_vazia]].
      - destruct (Ascii.eqb c2 Py.LF);
          (constructor; [exact Hcur | apply IH; [simpl in *; lia | apply sem_quebra_vazia]]). }
    apply Ascii.eqb_neq in Ecr.
    destruct (Py.quebra_simples c) eqn:Eq.
    { constructor; [exact Hcur | apply IH; [lia | apply sem_quebra_vazia]]. }
    assert (Hlf : c <> Py.LF) by (intros ->; discriminate Eq).
    pose proof (sem_quebra_snoc cur c Hcur Hlf Ecr) as Hsnoc.
    destruct (Ascii.eqb c (ascii_of_nat 194)).
    { destruct s1 as [|c2 s2]; [apply IH; [simpl; lia | exact Hsnoc]|].
      destruct (Ascii.eqb c2 (ascii_of_nat 133)).
      - constructor; [exact Hcur | apply IH; [simpl in *; lia | apply sem_quebra_vazia]].
      - apply IH; [lia | exact Hsnoc]. }
    destruct (Ascii.eqb c (ascii_of_nat 226)).
    { destruct s1 as [|c2 [|c3 s3]]; try (apply IH; [simpl in *; lia | exact Hsnoc]).
      destruct (Ascii.eqb c2 (ascii_of_nat 128)
                && (Ascii.eqb c3 (ascii_of_nat 168) || Ascii.eqb c3 (ascii_of_nat 169))).
      - constructor; [exact Hcur | apply IH; [simpl in *; lia | apply sem_quebra_vazia]].
      - apply IH; [simpl in *; lia | exact Hsnoc]. }
    apply IH; [lia | exact Hsnoc].
Qed.

(** X2.  No line that [splitlines] returns holds a line feed or a carriage
    return: every link handed to the fetcher is one line of the text area. *)
Theorem splitlines_sem_quebra (s : string) : Forall sem_quebra (Py.splitlines s).
Proof.
  apply (splitlines_go_sem_quebra (String.length s)); [lia | apply sem_quebra_vazia].
Qed.

End Primitivas.

(** ** The identifier of a link (line 29) *)

Section IdentificadorLimpo.
Import PyFacts.

Lemma antes_de_e_sem_e (s : string) : ocorre "&" (antes_de "&" s) = false.
Proof.
  induction s as [|a s IH]; [reflexivity|].
  cbn [antes_de]. destruct (Ascii.eqb a "&") eqn:E; [reflexivity|].
  apply Ascii.eqb_neq in E.
  cbn [ocorre]. rewrite prefix_cons, IH.
  destruct (ascii_dec "&" a); [congruence | reflexivity].
Qed.

Lemma prefix_igual_antes_de (s : string) :
  String.prefix "=" (antes_de "&" s) = String.prefix "=" s.
Proof.
  destruct s as [|b s]; [reflexivity|].
  cbn [antes_de]. destruct (Ascii.eqb b "&") eqn:E.
  - apply Ascii.eqb_eq in E. subst b. rewrite prefix_cons.
    destruct (ascii_dec "=" "&") as [H|_]; [discriminate H | reflexivity].
  - rewrite !prefix_cons, !prefix_nil. reflexivity.
Qed.

Lemma antes_de_e_sem_v (s : string) :
  ocorre "v=" s = false -> ocorre "v=" (antes_de "&" s) = false.
Proof.
  induction s as [|a s IH]; intros H; [reflexivity|].
  cbn [ocorre] in H. apply orb_false_iff in H as [Hp Ho].
  cbn [antes_de]. destruct (Ascii.eqb a "&"); [reflexivity|].
  cbn [ocorre]. rewrite (IH Ho), orb_false_r.
  rewrite prefix_cons in *. destruct (ascii_dec "v" a); [|reflexivity].
  now rewrite prefix_igual_antes_de.
Qed.

(** X3.  Extraction returns for every link, and what it returns holds
    neither [&] nor [v=]; extracting from an identifier gives the
    identifier back. *)
Theorem video_id_limpo (link : string) :
  exists id,
    video_id link = inr id
    /\ ocorre "&" id = false
    /\ ocorre "v=" id = false
    /\ video_id id = inr id.
Proof.
  assert (H : exists s, ocorre "v=" s = false /\ video_id link = inr (antes_de "&" s)).
  { destruct (ocorre "v=" link) eqn:Hv.
    - destruct (ultimo_v_existe link Hv) as (pre & resto & -> & Hr).
      exists resto. split; [exact Hr | now apply video_id_apos_ultimo_v].
    - exists link. split; [exact Hv | now apply video_id_sem_v]. }
  destruct H as (s & Hs & Hid).
  exists (antes_de "&" s). split; [exact Hid|].
  pose proof (antes_de_e_sem_e s) as He.
  pose proof (antes_de_e_sem_v s Hs) as Hv.
  split; [exact He|]. split; [exact Hv|].
  rewrite (video_id_sem_v _ Hv). f_equal.
  now apply (antes_de_sem_ocorrencia "&").
Qed.

End IdentificadorLimpo.

(** ** The transcript fetcher over several links (lines 22-38) *)

Section BuscaComposta.
Context {C : Colaboradores}.
Import PyFacts.

Lemma mundo_apos_app (l1 l2 : list string) :
  forall w, mundo_apos (l1 ++ l2) w = mundo_apos l2 (mundo_apos l1 w).
Proof.
  induction l1 as [|link l1 IH]; intros w; [reflexivity|].
  cbn [app mundo_apos]. destruct (video_id link); apply IH.
Qed.

Lemma respostas_app (l1 l2 : list string) :
  forall w,
    respostas (l1 ++ l2) w = (respostas l1 w ++ respostas l2 (mundo_apos l1 w))%list.
Proof.
  induction l1 as [|link l1 IH]; intros w; [reflexivity|].
  cbn [app respostas mundo_apos]. destruct (video_id link) as [e|id].
  - cbn. now rewrite IH.
  - destruct (get_transcript id idiomas w) as [r w']. cbn. now rewrite IH.
Qed.

Lemma rastro_busca_app (l1 l2 : list string) :
  forall w,
    rastro_busca (l1 ++ l2) w
    = (rastro_busca l1 w ++ rastro_busca l2 (mundo_apos l1 w))%list.
Proof.
  induction l1 as [|link l1 IH]; intros w; [reflexivity|].
  cbn [app rastro_busca mundo_apos]. destruct (video_id link) as [e|id].
  - cbn. now rewrite IH.
  - destruct (get_transcript id idiomas w) as [r w']. cbn [snd].
    rewrite IH. cbn. now rewrite <- !app_assoc.
Qed.

Lemma documento_de_app (a b : list (string * Res (list Trecho))) :
  documento_de (a ++ b) = documento_de a ++ documento_de b.
Proof.
  induction a as [|[link [e|t]] a IH]; cbn; [reflexivity | exact IH |].
  rewrite IH. now rewrite append_assoc.
Qed.

(** X4.  Fetching a list of links in one call is fetching its first part
    and then, from the state that leaves, its second part: the document is
    the two documents one after the other, and the final state is the same. *)
Theorem obter_transcricao_concatena (l1 l2 : list string) (s : Estado) :
  let r1 := obter_transcricao_youtube l1 s in
  let r2 := obter_transcricao_youtube l2 (snd r1) in
  exists d1 d2,
    fst r1 = inr d1 /\ fst r2 = inr d2
    /\ obter_transcricao_youtube (l1 ++ l2) s = (inr (d1 ++ d2), snd r2).
Proof.
  cbv zeta. rewrite !obter_transcricao_youtube_run. cbn [fst snd mundo sessao eventos prox_oid].
  do 2 eexists. split; [reflexivity|]. split; [reflexivity|].
  rewrite respostas_app, documento_de_app, mundo_apos_app, rastro_busca_app.
  now rewrite app_assoc.
Qed.

Lemma consultas_rastro_ids (links : list string) :
  forall w, map (@inr Excecao string) (consultas (rastro_busca links w)) = map video_id links.
Proof.
  induction links as [|link resto IH]; intros w; [reflexivity|].
  cbn [rastro_busca map].
  destruct (video_id_total link) as [id Hid]. rewrite Hid.
  destruct (get_transcript id idiomas w) as [[e|t] w']; cbn; now rewrite IH.
Qed.

Lemma rastro_busca_pt_en (links : list string) :
  forall w, Forall pede_pt_en (rastro_busca links w).
Proof.
  induction links as [|link resto IH]; intros w; [constructor|].
  cbn [rastro_busca]. destruct (video_id link) as [e|id].
  - constructor; [exact I | apply IH].
  - destruct (get_transcript id idiomas w) as [[e|t] w'];
      repeat (constructor; try reflexivity); apply IH.
Qed.

(** X5.  The fetcher asks the service for the identifier of every link, in
    link order and without dropping repeated links, each time with the
    languages Portuguese then English. *)
Theorem obter_transcricao_consulta_em_ordem (links : list string) (s : Estado) :
  exists rastro,
    eventos (snd (obter_transcricao_youtube links s)) = (eventos s ++ rastro)%list
    /\ map (@inr Excecao string) (consultas rastro) = map video_id links
    /\ Forall pede_pt_en rastro.
Proof.
  rewrite obter_transcricao_youtube_run. cbn [snd eventos].
  exists (rastro_busca links (mundo s)).
  split; [reflexivity|]. split; [apply consultas_rastro_ids | apply rastro_busca_pt_en].
Qed.

End BuscaComposta.

(** ** What the prompt holds (lines 65-87) *)

Section PromptContem.
Context {C : Colaboradores}.
Import PyFacts.

Lemma substring_de_dentro (a s antes depois : string) :
  substring_de a s -> substring_de a (antes ++ s ++ depois).
Proof.
  intros (x & y & ->). exists (antes ++ x), (y ++ depois).
  now rewrite !append_assoc.
Qed.

Lemma listagem_contem (fragmentos : list Document) :
  forall n k f,
    nth_error fragmentos k = Some f ->
    substring_de (Py.str_of_nat (n + k) ++ ". " ++ page_content f ++ Py.chr Py.LF)
                 (listagem n fragmentos).
Proof.
  induction fragmentos as [|g resto IH]; intros n k f Hk; [destruct k; discriminate Hk|].
  destruct k as [|k].
  - inversion Hk; subst g. rewrite Nat.add_0_r. cbn [listagem].
    exists "", (match resto with
                | [] => ""
                | _ :: _ => Py.chr Py.LF ++ listagem (S n) resto
                end).
    rewrite !append_assoc. reflexivity.
  - cbn [nth_error] in Hk. destruct resto as [|g' resto]; [destruct k; discriminate Hk|].
    specialize (IH (S n) k f Hk). rewrite Nat.add_succ_r. cbn [Nat.add] in IH.
    change (listagem n (g :: g' :: resto))
      with (Py.str_of_nat n ++ ". " ++ page_content g ++ Py.chr Py.LF
            ++ Py.chr Py.LF ++ listagem (S n) (g' :: resto)).
    destruct IH as (x & y & ->).
    exists (Py.str_of_nat n ++ ". " ++ page_content g ++ Py.chr Py.LF ++ Py.chr Py.LF ++ x), y.
    now rewrite !append_assoc.
Qed.

(** X6.  The prompt holds the question as it was typed and, for every
    retrieved chunk, its entry: the position of the chunk counted from 1, a
    dot, a space, the text of the chunk and a newline. *)
Theorem montar_prompt_contem (fragmentos : list Document) (pergunta : string) :
  exists prompt,
    montar_prompt fragmentos pergunta = inr prompt
    /\ substring_de pergunta prompt
    /\ forall k f,
         nth_error fragmentos k = Some f ->
         substring_de (Py.str_of_nat (S k) ++ ". " ++ page_content f ++ Py.chr Py.LF) prompt.
Proof.
  exists (prompt_de fragmentos pergunta). split; [apply montar_prompt_ok|]. split.
  - unfold prompt_de.
    exists (template_inicio ++ listagem 1 fragmentos ++ template_meio), template_fim.
    now rewrite !append_assoc.
  - intros k f Hk. unfold prompt_de.
    apply (substring_de_dentro _ (listagem 1 fragmentos) template_inicio
             (template_meio ++ pergunta ++ template_fim)).
    exact (listagem_contem fragmentos 1 k f Hk).
Qed.

End PromptContem.

(** ** The two actions of the script, outcome by outcome (lines 89-153) *)

Section Acoes.
Context {C : Colaboradores}.

Ltac monad_unfold :=
  unfold bind, ret, raise, lift, try_except, emitir, chamar, ler_sessao,
    gravar_sessao, nova_mensagem.

(** The body of the button on a session whose history key is set. *)
Lemma processar_videos_run (links : string) (s : Estado) (h : list Mensagem) :
  historico_chat (sessao s) = Some h ->
  let ls := Py.splitlines links in
  let doc := documento_de (respostas ls (mundo s)) in
  let s1 :=
    {| mundo := mundo_apos ls (mundo s);
       sessao :=
         {| historico_chat :=
              Some (h ++ [{| oid := prox_oid s; papel := AI; content := saudacao |}])%list;
            base_vetores := base_vetores (sessao s) |};
       eventos := (eventos s ++ rastro_busca ls (mundo s))%list;
       prox_oid := S (prox_oid s) |} in
  processar_videos links s
  = match split_text divisor_texto doc (mundo s1) with
    | (inl e, w2) => (inl e, avancar s1 w2 [EvSplitText divisor_texto doc])
    | (inr pedacos, w2) =>
        match from_texts pedacos modelo_embeddings w2 with
        | (inl e, w3) =>
            (inl e, avancar s1 w3 [EvSplitText divisor_texto doc; EvFromTexts pedacos])
        | (inr base, w3) =>
            (inr tt,
             {| mundo := w3;
                sessao := {| historico_chat := historico_chat (sessao s1);
                             base_vetores := Some (Some base) |};
                eventos :=
                  (eventos s1
                   ++ [ EvSplitText divisor_texto doc; EvFromTexts pedacos;
                        EvSuccess "Vídeos processados com sucesso!" ])%list;
                prox_oid := prox_oid s1 |})
        end
    end.
Proof.
  destruct s as [w [hs bs] evs n]. cbn [sessao historico_chat mundo prox_oid eventos base_vetores].
  intros ->. cbv zeta.
  unfold processar_videos, historico_append, ler_historico, gravar_historico,
    gravar_base_vetores, obter_base_vetores_dos_textos, AIMessage.
  unfold bind at 1 2 3 4 5 6. monad_unfold.
  cbn -[obter_transcricao_youtube saudacao Py.splitlines].
  rewrite obter_transcricao_youtube_run.
  cbn -[saudacao Py.splitlines].
  destruct (split_text _ _ _) as [[e|pedacos] w2]; cbn -[saudacao Py.splitlines];
    [reflexivity|].
  destruct (from_texts _ _ _) as [[e|base] w3]; cbn -[saudacao Py.splitlines].
  - unfold avancar. cbn. now rewrite <- !app_assoc.
  - now rewrite <- !app_assoc.
Qed.

(** A cycle whose retrieval raises. *)
Lemma responder_busca_falha (s : Estado) (h : list Mensagem) (base : Indice)
    (pergunta : string) (w1 : World) (e : Excecao) :
  historico_chat (sessao s) = Some h ->
  similarity_search base pergunta 3 (mundo s) = (inl e, w1) ->
  responder base pergunta s = (inl e, avancar s w1 [EvSimilaritySearch pergunta 3]).
Proof.
  intros _ Hs. unfold responder. monad_unfold. now rewrite Hs.
Qed.

(** The rest of the script, after the button, on a session whose two keys
    are set. *)
Lemma main_interacao (e : Entrada) (s1 : Estado) (h : list Mensagem) :
  historico_chat (sessao s1) = Some h ->
  base_vetores (sessao s1) <> None ->
  (b <- ler_base_vetores ;;
   match b with
   | Some base =>
       match chat_input e with
       | Some pergunta =>
           if String.eqb pergunta "" then ret tt else responder base pergunta
       | None => ret tt
       end ;;
       h <- ler_historico ;;
       exibir h
   | None => ret tt
   end) s1
  = match indice s1 with
    | None => (inr tt, s1)
    | Some base =>
        match
          match chat_input e with
          | Some pergunta =>
              if String.eqb pergunta "" then (inr tt, s1) else responder base pergunta s1
          | None => (inr tt, s1)
          end
        with
        | (inl x, s2) => (inl x, s2)
        | (inr _, s2) => (inr tt, avancar s2 (mundo s2) (baloes (conversa s2)))
        end
    end.
Proof.
  intros Hh Hb. unfold indice.
  destruct (base_vetores (sessao s1)) as [b|] eqn:Eb; [|contradiction].
  unfold ler_base_vetores, bind at 1 2, ler_sessao. rewrite Eb. unfold ret at 1.
  destruct b as [base|]; [|reflexivity].
  assert (Hexibe : forall s2 h2, historico_chat (sessao s2) = Some h2 ->
            (h <- ler_historico ;; exibir h) s2
            = (inr tt, avancar s2 (mundo s2) (baloes (conversa s2)))).
  { intros s2 h2 E. unfold ler_historico, bind, ler_sessao, conversa. rewrite E.
    unfold ret. now rewrite exibir_run. }
  unfold bind at 1.
  destruct (chat_input e) as [pergunta|].
  - destruct (String.eqb pergunta "").
    + unfold ret at 1. now apply Hexibe with (h2 := h).
    + destruct (similarity_search base pergunta 3 (mundo s1)) as [[x|docs] w1] eqn:Es.
      * now rewrite (responder_busca_falha s1 h base pergunta w1 x Hh Es).
      * destruct (chat_invoke
                    (h ++ [{| oid := prox_oid s1; papel := Human;
                              content := prompt_de docs pergunta |}])%list w1)
          as [[x|resposta] w2] eqn:Ec.
        -- now rewrite (responder_chat_falha s1 h base pergunta docs w1 w2 x Hh Es Ec).
        -- rewrite (responder_completo s1 h base pergunta docs w1 w2 resposta Hh Es Ec).
           now eapply Hexibe.
  - unfold ret at 1. now apply Hexibe with (h2 := h).
Qed.

(** The body of the button leaves both keys of the session set. *)
Lemma processar_videos_chaves (links : string) (s : Estado) (h : list Mensagem) :
  historico_chat (sessao s) = Some h ->
  base_vetores (sessao s) <> None ->
  let s1 := snd (processar_videos links s) in
  historico_chat (sessao s1)
  = Some (h ++ [{| oid := prox_oid s; papel := AI; content := saudacao |}])%list
  /\ base_vetores (sessao s1) <> None.
Proof.
  intros Hh Hb. cbv zeta. rewrite (processar_videos_run links s h Hh). cbv zeta.
  destruct (split_text _ _ _) as [[e|pedacos] w2]; cbn [snd avancar sessao historico_chat base_vetores];
    [split; [reflexivity | exact Hb]|].
  destruct (from_texts _ _ _) as [[e|base] w3]; cbn [snd avancar sessao historico_chat base_vetores];
    split; try reflexivity; try exact Hb; discriminate.
Qed.

(** One run of the script: the keys are set, then the button acts if it
    was pressed, then, if there is an index, the question is answered and
    the history is shown. *)
Lemma main_fases (e : Entrada) (s : Estado) :
  main e s
  = match (if botao_processar e
           then processar_videos (links_videos e) (inicializada s)
           else (inr tt, inicializada s)) with
    | (inl x, s1) => (inl x, s1)
    | (inr _, s1) =>
        match indice s1 with
        | None => (inr tt, s1)
        | Some base =>
            match
              match chat_input e with
              | Some pergunta =>
                  if String.eqb pergunta "" then (inr tt, s1)
                  else responder base pergunta s1
              | None => (inr tt, s1)
              end
            with
            | (inl x, s2) => (inl x, s2)
            | (inr _, s2) => (inr tt, avancar s2 (mundo s2) (baloes (conversa s2)))
            end
        end
    end.
Proof.
  assert (Hinicio :
    main e s
    = match (if botao_processar e
             then processar_videos (links_videos e) (inicializada s)
             else (inr tt, inicializada s)) with
      | (inl x, s1) => (inl x, s1)
      | (inr _, s1) =>
          (b <- ler_base_vetores ;;
           match b with
           | Some base =>
               match chat_input e with
               | Some pergunta =>
                   if String.eqb pergunta "" then ret tt else responder base pergunta
               | None => ret tt
               end ;;
               h <- ler_historico ;;
               exibir h
           | None => ret tt
           end) s1
      end).
  { destruct e as [links [|] q]; destruct s as [w [[h|] [b|]] evs n]; reflexivity. }
  rewrite Hinicio. clear Hinicio.
  assert (Hh0 : historico_chat (sessao (inicializada s)) = Some (conversa s)) by reflexivity.
  assert (Hb0 : base_vetores (sessao (inicializada s)) <> None) by discriminate.
  destruct (botao_processar e).
  - destruct (processar_videos_chaves (links_videos e) (inicializada s) _ Hh0 Hb0)
      as [Hh1 Hb1].
    destruct (processar_videos (links_videos e) (inicializada s)) as [[x|[]] s1];
      [reflexivity|].
    cbn [snd] in Hh1, Hb1. exact (main_interacao e s1 _ Hh1 Hb1).
  - exact (main_interacao e (inicializada s) _ Hh0 Hb0).
Qed.

End Acoes.

(** ** The button (lines 111-120) *)

Section Botao.
Context {C : Colaboradores}.

Lemma rastro_busca_sem_sucesso (links : list string) :
  forall w, Forall nem_sucesso_nem_balao (rastro_busca links w).
Proof.
  induction links as [|link resto IH]; intros w0; [constructor|].
  cbn [rastro_busca]. destruct (video_id link) as [x|id].
  - constructor; [exact I | apply IH].
  - destruct (get_transcript id idiomas w0) as [[x|t] w'];
      repeat (constructor; try exact I); apply IH.
Qed.

(** X7.  When the splitter and the index builder return, a press of the
    button ends without error: the Vector Index of the session is the one
    built from the chunks of the fetched document, whatever index was there
    before, the greeting is added to the history, success is reported after
    the calls and the history is shown. *)
Theorem processar_reconstroi_indice (links : string) (s : Estado)
    (pedacos : list string) (base : Indice) (w2 w3 : World) :
  let ls := Py.splitlines links in
  let doc := documento_de (respostas ls (mundo s)) in
  let g := {| oid := prox_oid s; papel := AI; content := saudacao |} in
  let r := main {| links_videos := links; botao_processar := true; chat_input := None |} s in
  split_text divisor_texto doc (mundo_apos ls (mundo s)) = (inr pedacos, w2) ->
  from_texts pedacos modelo_embeddings w2 = (inr base, w3) ->
  fst r = inr tt
  /\ indice (snd r) = Some base
  /\ conversa (snd r) = (conversa s ++ [g])%list
  /\ mundo (snd r) = w3
  /\ eventos (snd r)
     = (eventos s ++ rastro_busca ls (mundo s)
        ++ [ EvSplitText divisor_texto doc; EvFromTexts pedacos;
             EvSuccess "Vídeos processados com sucesso!" ]
        ++ baloes (conversa s ++ [g]))%list.
Proof.
  cbv zeta. intros Hs Hf. rewrite main_fases.
  cbn [botao_processar links_videos chat_input].
  rewrite (processar_videos_run links (inicializada s) (conversa s) eq_refl).
  cbv zeta. cbn [mundo inicializada]. rewrite Hs, Hf.
  cbn -[saudacao Py.splitlines baloes].
  repeat split. now rewrite <- !app_assoc.
Qed.

(** X8.  When the splitter or the index builder raises, a press of the
    button ends with that error: the Vector Index of the session is the one
    of before, the greeting has been added to the history all the same, and
    neither success is reported nor the history shown. *)
Theorem processar_falha_mantem_indice (links : string) (s : Estado) (e : Excecao)
    (w : World) :
  let ls := Py.splitlines links in
  let doc := documento_de (respostas ls (mundo s)) in
  let g := {| oid := prox_oid s; papel := AI; content := saudacao |} in
  let r := main {| links_videos := links; botao_processar := true; chat_input := None |} s in
  (split_text divisor_texto doc (mundo_apos ls (mundo s)) = (inl e, w)
   \/ exists pedacos w2,
        split_text divisor_texto doc (mundo_apos ls (mundo s)) = (inr pedacos, w2)
        /\ from_texts pedacos modelo_embeddings w2 = (inl e, w)) ->
  fst r = inl e
  /\ indice (snd r) = indice s
  /\ conversa (snd r) = (conversa s ++ [g])%list
  /\ mundo (snd r) = w
  /\ exists novos,
       eventos (snd r) = (eventos s ++ novos)%list /\ Forall nem_sucesso_nem_balao novos.
Proof.
  cbv zeta. intros H. rewrite main_fases.
  cbn [botao_processar links_videos chat_input].
  rewrite (processar_videos_run links (inicializada s) (conversa s) eq_refl).
  cbv zeta. cbn [mundo inicializada].
  pose proof (rastro_busca_sem_sucesso (Py.splitlines links) (mundo s)) as Hr.
  destruct H as [Hs | (pedacos & w2 & Hs & Hf)]; rewrite Hs; [|rewrite Hf];
    cbn -[saudacao Py.splitlines];
    (repeat split;
     eexists; split; [rewrite <- app_assoc; reflexivity|];
     apply Forall_app; split; [exact Hr | repeat constructor]).
Qed.

(** X9.  There is no guard for the empty document: when no link succeeds
    (all fail, or there is none) a press of the button still calls the
    splitter, right after the fetcher, with the empty string. *)
Theorem processar_documento_vazio (links : string) (s : Estado) :
  let ls := Py.splitlines links in
  let r := main {| links_videos := links; botao_processar := true; chat_input := None |} s in
  (forall link x, In (link, x) (respostas ls (mundo s)) -> exists e, x = inl e) ->
  exists resto,
    eventos (snd r)
    = (eventos s ++ rastro_busca ls (mundo s)
       ++ EvSplitText divisor_texto "" :: resto)%list.
Proof.
  cbv zeta. intros H. rewrite main_fases.
  cbn [botao_processar links_videos chat_input].
  rewrite (processar_videos_run links (inicializada s) (conversa s) eq_refl).
  cbv zeta. cbn [mundo inicializada].
  rewrite (documento_sem_sucesso _ H).
  destruct (split_text _ _ _) as [[e|pedacos] w2]; cbn -[saudacao Py.splitlines baloes].
  - exists []. now rewrite <- app_assoc.
  - destruct (from_texts _ _ _) as [[e|base] w3]; cbn -[saudacao Py.splitlines baloes].
    + eexists. rewrite <- app_assoc. reflexivity.
    + eexists. rewrite <- !app_assoc. reflexivity.
Qed.

End Botao.

(** ** The chat (lines 122-153) *)

Section Chat.
Context {C : Colaboradores}.

(** X10.  Until a press of the button has built an index, a run of the
    script without the button does nothing but set the missing keys of the
    session: whatever is submitted, nothing is retrieved, asked or shown. *)
Theorem sem_indice_nada_acontece (links : string) (entrada : option string) (s : Estado) :
  indice s = None ->
  main {| links_videos := links; botao_processar := false; chat_input := entrada |} s
  = (inr tt, inicializada s).
Proof.
  intros H. rewrite main_fases. cbn [botao_processar].
  assert (E : indice (inicializada s) = None) by exact H.
  now rewrite E.
Qed.

(** X11.  When the search of the index raises, the run ends with that
    error before anything is added to the history: conversation, index and
    allocator are as before, and the chat model is not called. *)
Theorem falha_da_busca_nao_altera (links pergunta : string) (s : Estado)
    (base : Indice) (w1 : World) (e : Excecao) :
  let r := main {| links_videos := links; botao_processar := false;
                   chat_input := Some pergunta |} s in
  indice s = Some base ->
  pergunta <> "" ->
  similarity_search base pergunta 3 (mundo s) = (inl e, w1) ->
  fst r = inl e
  /\ conversa (snd r) = conversa s
  /\ indice (snd r) = indice s
  /\ prox_oid (snd r) = prox_oid s
  /\ mundo (snd r) = w1
  /\ eventos (snd r) = (eventos s ++ [EvSimilaritySearch pergunta 3])%list.
Proof.
  cbv zeta. intros Hb Hq Hs. rewrite main_fases.
  cbn [botao_processar chat_input].
  assert (E : indice (inicializada s) = Some base) by exact Hb. rewrite E.
  destruct (String.eqb_spec pergunta "") as [|_]; [contradiction|].
  rewrite (responder_busca_falha (inicializada s) (conversa s) base pergunta w1 e eq_refl Hs).
  cbn. rewrite Hb. repeat split.
Qed.

(** X12.  The Prompt message that a failed chat completion leaves in the
    history is shown to the user: the next run of the script, with nothing
    pressed or submitted, ends without error and shows the prompt text in a
    bubble of the user. *)
Theorem prompt_deixado_e_exibido (links links' pergunta : string) (s : Estado)
    (h : list Mensagem) (base : Indice) (docs : list Document) (w1 w2 : World)
    (e : Excecao) :
  let mp := {| oid := prox_oid s; papel := Human; content := prompt_de docs pergunta |} in
  let s1 := snd (main {| links_videos := links; botao_processar := false;
                         chat_input := Some pergunta |} s) in
  let r := main {| links_videos := links'; botao_processar := false;
                   chat_input := None |} s1 in
  historico_chat (sessao s) = Some h ->
  base_vetores (sessao s) = Some (Some base) ->
  pergunta <> "" ->
  similarity_search base pergunta 3 (mundo s) = (inr docs, w1) ->
  chat_invoke (h ++ [mp])%list w1 = (inl e, w2) ->
  fst r = inr tt
  /\ eventos (snd r) = (eventos s1 ++ baloes (h ++ [mp]))%list
  /\ In (EvChatMessage "human" (prompt_de docs pergunta)) (baloes (h ++ [mp])%list).
Proof.
  cbv zeta. intros Hh Hb Hq Hs Hc.
  rewrite (main_chat_falha links pergunta s h base docs w1 w2 e Hh Hb Hq Hs Hc).
  cbn [snd]. rewrite main_fases. cbn -[baloes prompt_de].
  split; [reflexivity|]. split; [reflexivity|].
  unfold baloes. rewrite map_app. apply in_or_app. right. left. reflexivity.
Qed.

End Chat.

(** ** What every run of the script keeps *)

Section Invariantes.
Context {C : Colaboradores}.

(** What a cycle does to the session and to the trace, whatever its
    outcome. *)
Lemma responder_forma (base : Indice) (pergunta : string) (s : Estado)
    (h : list Mensagem) :
  historico_chat (sessao s) = Some h ->
  exists l novos,
    conversa (snd (responder base pergunta s)) = (h ++ l)%list
    /\ List.length l <= 2
    /\ base_vetores (sessao (snd (responder base pergunta s))) = base_vetores (sessao s)
    /\ eventos (snd (responder base pergunta s)) = (eventos s ++ novos)%list
    /\ chamadas_busca novos = 1
    /\ chamadas_chat novos <= 1
    /\ avisos novos = []
    /\ consultas novos = [].
Proof.
  intros Hh.
  destruct (similarity_search base pergunta 3 (mundo s)) as [[x|docs] w1] eqn:Es.
  - rewrite (responder_busca_falha s h base pergunta w1 x Hh Es).
    exists [], [EvSimilaritySearch pergunta 3]. cbn [snd].
    change (conversa (avancar s w1 [EvSimilaritySearch pergunta 3])) with (conversa s).
    unfold conversa. rewrite Hh, app_nil_r. cbn. repeat split; lia.
  - destruct (chat_invoke
                (h ++ [{| oid := prox_oid s; papel := Human;
                          content := prompt_de docs pergunta |}])%list w1)
      as [[x|resposta] w2] eqn:Ec.
    + rewrite (responder_chat_falha s h base pergunta docs w1 w2 x Hh Es Ec).
      eexists [_], [_; _]. cbn -[prompt_de]. repeat split; lia.
    + rewrite (responder_completo s h base pergunta docs w1 w2 resposta Hh Es Ec).
      eexists [_; _], [_; _]. cbn -[prompt_de]. repeat split; lia.
Qed.

Lemma baloes_sem_chamadas (h : list Mensagem) :
  chamadas_busca (baloes h) = 0 /\ chamadas_chat (baloes h) = 0
  /\ avisos (baloes h) = [] /\ consultas (baloes h) = [].
Proof. induction h as [|m h IH]; cbn; auto. Qed.

(** The part of a run that follows the button, on a session whose history
    key is set: what it adds to the history and to the trace. *)
Lemma interacao_forma (e : Entrada) (s1 : Estado) (h : list Mensagem) :
  historico_chat (sessao s1) = Some h ->
  let res :=
    match indice s1 with
    | None => (inr tt, s1)
    | Some base =>
        match
          match chat_input e with
          | Some pergunta =>
              if String.eqb pergunta "" then (inr tt, s1) else responder base pergunta s1
          | None => (inr tt, s1)
          end
        with
        | (inl x, s2) => (inl x, s2)
        | (inr _, s2) => (@inr Excecao unit tt, avancar s2 (mundo s2) (baloes (conversa s2)))
        end
    end in
  exists l novos,
    conversa (snd res) = (h ++ l)%list
    /\ List.length l <= 2
    /\ (l = [] \/ indice s1 <> None)
    /\ indice (snd res) = indice s1
    /\ eventos (snd res) = (eventos s1 ++ novos)%list
    /\ chamadas_busca novos <= 1
    /\ chamadas_chat novos <= chamadas_busca novos
    /\ avisos novos = []
    /\ consultas novos = [].
Proof.
  intros Hh. cbv zeta.
  assert (Hcv : conversa s1 = h) by (unfold conversa; now rewrite Hh).
  assert (Hparado : forall evs,
    chamadas_busca evs = 0 /\ chamadas_chat evs = 0 /\ avisos evs = [] /\ consultas evs = [] ->
    exists l novos,
      conversa (avancar s1 (mundo s1) evs) = (h ++ l)%list
      /\ List.length l <= 2
      /\ (l = [] \/ indice s1 <> None)
      /\ indice (avancar s1 (mundo s1) evs) = indice s1
      /\ eventos (avancar s1 (mundo s1) evs) = (eventos s1 ++ novos)%list
      /\ chamadas_busca novos <= 1
      /\ chamadas_chat novos <= chamadas_busca novos
      /\ avisos novos = []
      /\ consultas novos = []).
  { intros evs (H1 & H2 & H3 & H4). exists [], evs.
    change (conversa (avancar s1 (mundo s1) evs)) with (conversa s1).
    rewrite Hcv, app_nil_r, H1, H2. cbn. repeat split; auto. }
  destruct (indice s1) as [base|] eqn:Eb.
  2:{ exists [], []. cbn [snd]. rewrite Hcv, !app_nil_r. cbn. repeat split; auto. }
  destruct (chat_input e) as [pergunta|].
  2:{ cbn [snd]. apply Hparado, baloes_sem_chamadas. }
  destruct (String.eqb pergunta "").
  { cbn [snd]. apply Hparado, baloes_sem_chamadas. }
  destruct (responder_forma base pergunta s1 h Hh)
    as (l & novos & Hc & Hl & Hbv & Hev & Hn1 & Hn2 & Hn3 & Hn4).
  assert (Hind : indice (snd (responder base pergunta s1)) = Some base)
    by (unfold indice in *; now rewrite Hbv).
  destruct (responder base pergunta s1) as [[x|[]] s2]; cbn [snd] in *.
  - exists l, novos. repeat split; auto; try lia. right. discriminate.
  - exists l, (novos ++ baloes (conversa s2))%list.
    destruct (baloes_sem_chamadas (conversa s2)) as (B1 & B2 & B3 & B4).
    change (conversa (avancar s2 (mundo s2) (baloes (conversa s2)))) with (conversa s2).
    change (indice (avancar s2 (mundo s2) (baloes (conversa s2)))) with (indice s2).
    cbn [avancar eventos]. rewrite Hev, <- app_assoc.
    assert (Hcb : forall a b, chamadas_busca (a ++ b) = chamadas_busca a + chamadas_busca b).
    { intros a b. induction a as [|ev a IHa]; [reflexivity|]. destruct ev; cbn; now rewrite ?IHa. }
    assert (Hcc : forall a b, chamadas_chat (a ++ b) = chamadas_chat a + chamadas_chat b).
    { intros a b. induction a as [|ev a IHa]; [reflexivity|]. destruct ev; cbn; now rewrite ?IHa. }
    rewrite Hcb, Hcc, avisos_app, consultas_app, B1, B2, B3, B4, Hn3, Hn4.
    repeat split; auto; try lia. right. discriminate.
Qed.

Lemma chamadas_busca_app (a b : list Evento) :
  chamadas_busca (a ++ b) = chamadas_busca a + chamadas_busca b.
Proof.
  induction a as [|ev a IH]; [reflexivity|]. destruct ev; cbn; now rewrite ?IH.
Qed.

Lemma chamadas_chat_app (a b : list Evento) :
  chamadas_chat (a ++ b) = chamadas_chat a + chamadas_chat b.
Proof.
  induction a as [|ev a IH]; [reflexivity|]. destruct ev; cbn; now rewrite ?IH.
Qed.

Lemma rastro_busca_sem_chamadas (links : list string) :
  forall w,
    chamadas_busca (rastro_busca links w) = 0 /\ chamadas_chat (rastro_busca links w) = 0.
Proof.
  induction links as [|link resto IH]; intros w; [split; reflexivity|].
  cbn [rastro_busca]. destruct (video_id link) as [x|id].
  - apply IH.
  - destruct (get_transcript id idiomas w) as [[x|t] w']; cbn; apply IH.
Qed.

(** What the body of the button adds to the history and to the trace,
    whatever its outcome. *)
Lemma processar_forma (links : string) (s : Estado) (h : list Mensagem) :
  historico_chat (sessao s) = Some h ->
  let r := processar_videos links s in
  exists novos,
    historico_chat (sessao (snd r))
    = Some (h ++ [{| oid := prox_oid s; papel := AI; content := saudacao |}])%list
    /\ eventos (snd r) = (eventos s ++ novos)%list
    /\ chamadas_busca novos = 0
    /\ chamadas_chat novos = 0.
Proof.
  intros Hh. cbv zeta. rewrite (processar_videos_run links s h Hh). cbv zeta.
  destruct (rastro_busca_sem_chamadas (Py.splitlines links) (mundo s)) as [R1 R2].
  destruct (split_text _ _ _) as [[e|pedacos] w2].
  - eexists. cbn [snd avancar sessao historico_chat eventos].
    split; [reflexivity|]. rewrite <- app_assoc. split; [reflexivity|].
    rewrite chamadas_busca_app, chamadas_chat_app, R1, R2. split; reflexivity.
  - destruct (from_texts _ _ _) as [[e|base] w3];
      eexists; cbn [snd avancar sessao historico_chat eventos];
      (split; [reflexivity|]); rewrite <- app_assoc; (split; [reflexivity|]);
      rewrite chamadas_busca_app, chamadas_chat_app, R1, R2; split; reflexivity.
Qed.

(** Gives the result of the run in the goal the form it has in [H]. *)
Ltac mesma_forma H :=
  match type of H with
  | conversa ?T = _ =>
      repeat match goal with
      | |- context [@snd ?A ?B ?X] =>
          lazymatch T with
          | @snd A B X => fail
          | _ => change (@snd A B X) with T
          end
      end
  end.

(** What one run of the script adds to the history and to the trace. *)
Lemma main_forma (e : Entrada) (s : Estado) :
  let r := main e s in
  exists l novos,
    conversa (snd r) = (conversa s ++ l)%list
    /\ List.length l <= 3
    /\ ((l = [] /\ indice (snd r) = indice s)
        \/ (exists l', l = {| oid := prox_oid s; papel := AI; content := saudacao |} :: l')
        \/ indice s <> None)
    /\ eventos (snd r) = (eventos s ++ novos)%list
    /\ chamadas_busca novos <= 1
    /\ chamadas_chat novos <= chamadas_busca novos
    /\ (botao_processar e = false -> avisos novos = [] /\ consultas novos = []).
Proof.
  cbv zeta. rewrite main_fases.
  assert (Hh0 : historico_chat (sessao (inicializada s)) = Some (conversa s)) by reflexivity.
  destruct (botao_processar e).
  - destruct (processar_forma (links_videos e) (inicializada s) _ Hh0)
      as (novos1 & Hh1 & Hev1 & N1 & N2).
    cbn [prox_oid inicializada eventos] in Hh1, Hev1.
    destruct (processar_videos (links_videos e) (inicializada s)) as [[x|[]] s1];
      cbn [snd] in Hh1, Hev1.
    + exists [{| oid := prox_oid s; papel := AI; content := saudacao |}], novos1.
      cbn [snd]. unfold conversa at 1. rewrite Hh1, Hev1, N1, N2.
      repeat split; cbn; try lia; try discriminate.
      right. left. eexists. reflexivity.
    + destruct (interacao_forma e s1 _ Hh1)
        as (l2 & novos2 & Hc & Hl & _ & _ & Hev & M1 & M2 & _ & _).
      cbv zeta in Hc, Hev.
      exists ({| oid := prox_oid s; papel := AI; content := saudacao |} :: l2),
             (novos1 ++ novos2)%list.
      mesma_forma Hc. rewrite Hc, Hev, Hev1.
      rewrite chamadas_busca_app, chamadas_chat_app, N1, N2, <- !app_assoc.
      repeat split; cbn; try lia; try discriminate.
      right. left. eexists. reflexivity.
  - destruct (interacao_forma e (inicializada s) _ Hh0)
      as (l2 & novos2 & Hc & Hl & Hd & Hi & Hev & M1 & M2 & M3 & M4).
    cbv zeta in Hc, Hi, Hev.
    exists l2, novos2. mesma_forma Hc. rewrite Hc, Hi, Hev. repeat split; auto; try lia.
    destruct Hd as [-> | Hd]; [left; split; reflexivity | right; right; exact Hd].
Qed.

(** X13.  A run of the script never removes or changes a message that
    was in the history before it: the history after the run is the history
    of before followed by at most three new messages. *)
Theorem main_so_acrescenta (e : Entrada) (s : Estado) :
  exists l,
    conversa (snd (main e s)) = (conversa s ++ l)%list /\ List.length l <= 3.
Proof.
  destruct (main_forma e s) as (l & novos & Hc & Hl & _).
  exists l. split; assumption.
Qed.

(** X14.  A run of the script searches the index at most once and calls
    the chat model at most once, and only in a run that searched; when the
    button was not pressed it neither asks the transcript service nor
    warns. *)
Theorem main_chamadas (e : Entrada) (s : Estado) :
  exists novos,
    eventos (snd (main e s)) = (eventos s ++ novos)%list
    /\ chamadas_busca novos <= 1
    /\ chamadas_chat novos <= chamadas_busca novos
    /\ (botao_processar e = false -> avisos novos = [] /\ consultas novos = []).
Proof.
  destruct (main_forma e s) as (l & novos & _ & _ & _ & Hev & H1 & H2 & H3).
  exists novos. repeat split; try assumption; now apply H3.
Qed.

Lemma main_saudacao_primeiro (e : Entrada) (s : Estado) :
  saudacao_primeiro s -> saudacao_primeiro (snd (main e s)).
Proof.
  unfold saudacao_primeiro. intros J.
  destruct (main_forma e s) as (l & novos & Hc & _ & Hd & _).
  cbv zeta in Hc, Hd. rewrite Hc.
  destruct Hd as [[-> Hi] | [[l' ->] | Hi]].
  - rewrite app_nil_r. now rewrite Hi.
  - destruct (conversa s) as [|m t]; cbn; [split; reflexivity | exact J].
  - destruct (conversa s) as [|m t]; [contradiction | exact J].
Qed.

(** X15.  In every state a session goes through, the greeting opens the
    conversation: the history, when it is not empty, starts with the
    greeting of the assistant, and there is no index while it is empty. *)
Theorem alcancavel_saudacao_primeiro (s : Estado) :
  alcancavel s -> saudacao_primeiro s.
Proof.
  induction 1 as [w|e s _ IH].
  - reflexivity.
  - now apply main_saudacao_primeiro.
Qed.

(** X16.  A run of the script that returns on a session with an index
    ends by showing the Conversation State it leaves, message by message in
    order, each in a bubble of its role. *)
Theorem main_exibe_conversa (e : Entrada) (s : Estado) :
  let r := main e s in
  fst r = inr tt ->
  indice (snd r) <> None ->
  exists antes, eventos (snd r) = (antes ++ baloes (conversa (snd r)))%list.
Proof.
  cbv zeta. rewrite main_fases.
  destruct (if botao_processar e
            then processar_videos (links_videos e) (inicializada s)
            else (inr tt, inicializada s)) as [[x|[]] s1]; [discriminate|].
  destruct (indice s1) as [base|] eqn:Eb.
  2:{ cbn [fst snd]. intros _ H. now rewrite Eb in H. }
  destruct (match chat_input e with
            | Some pergunta =>
                if String.eqb pergunta "" then (inr tt, s1) else responder base pergunta s1
            | None => (inr tt, s1)
            end) as [[x|[]] s2]; [discriminate|].
  cbn [fst snd]. intros _ _. exists (eventos s2). reflexivity.
Qed.

End Invariantes.

(** ** The messages of the history are distinct objects *)

Section Distintos.
Context {C : Colaboradores}.

Lemma mantem_bind {A B : Type} (I : Estado -> Prop) (m : M A) (f : A -> M B) :
  mantem I m -> (forall a, mantem I (f a)) -> mantem I (bind m f).
Proof.
  intros Hm Hf s H. unfold bind. specialize (Hm s H).
  destruct (m s) as [[e|a] s']; cbn [snd] in *; [exact Hm | apply Hf, Hm].
Qed.

Lemma mantem_try_except {A : Type} (I : Estado -> Prop) (corpo : M A)
    (tratador : Excecao -> M A) :
  mantem I corpo -> (forall e, mantem I (tratador e)) -> mantem I (try_except corpo tratador).
Proof.
  intros Hm Hf s H. unfold try_except. specialize (Hm s H).
  destruct (corpo s) as [[e|a] s']; cbn [snd] in *; [apply Hf, Hm | exact Hm].
Qed.

Lemma distintos_ret {A : Type} (a : A) : mantem objetos_distintos (ret a).
Proof. intros s H. exact H. Qed.

Lemma distintos_raise {A : Type} (e : Excecao) : mantem objetos_distintos (@raise C A e).
Proof. intros s H. exact H. Qed.

Lemma distintos_lift {A : Type} (r : Res A) : mantem objetos_distintos (lift r).
Proof. intros s H. exact H. Qed.

Lemma distintos_emitir (ev : Evento) : mantem objetos_distintos (emitir ev).
Proof. intros s H. exact H. Qed.

Lemma distintos_chamar {A : Type} (ev : Evento) (op : World -> Res A * World) :
  mantem objetos_distintos (chamar ev op).
Proof. intros s H. unfold chamar. destruct (op (mundo s)). exact H. Qed.

Lemma distintos_ler_sessao : mantem objetos_distintos ler_sessao.
Proof. intros s H. exact H. Qed.

Lemma distintos_ler_historico : mantem objetos_distintos ler_historico.
Proof.
  intros s H. unfold ler_historico, bind, ler_sessao.
  destruct (historico_chat (sessao s)); exact H.
Qed.

Lemma distintos_ler_base_vetores : mantem objetos_distintos ler_base_vetores.
Proof.
  intros s H. unfold ler_base_vetores, bind, ler_sessao.
  destruct (base_vetores (sessao s)); exact H.
Qed.

Lemma distintos_gravar_base_vetores (b : option Indice) :
  mantem objetos_distintos (gravar_base_vetores b).
Proof. intros s H. exact H. Qed.

Lemma distintos_historico_vazio : mantem objetos_distintos (gravar_historico []).
Proof. intros s H. split; constructor. Qed.

(** A new message is an object the history does not hold yet. *)
Lemma distintos_historico_append (p : Papel) (c : string) :
  mantem objetos_distintos (historico_append (nova_mensagem p c)).
Proof.
  intros [w [[h|] b] evs n] [Hal Hnd]; cbn in *; [|split; assumption].
  unfold historico_alocado in *. cbn in *. split.
  - apply Forall_app. split.
    + eapply Forall_impl; [|exact Hal]. cbn. intros m Hm. lia.
    + repeat constructor.
  - unfold conversa. cbn [sessao historico_chat]. rewrite map_app. cbn [map oid].
    apply NoDup_app; [exact Hnd | repeat constructor; intros [] | ].
    intros k Hk [E|[]]. subst k.
    apply in_map_iff in Hk as (m & Hm & Hin).
    pose proof (proj1 (Forall_forall _ _) Hal m Hin) as Hlt. cbn in Hlt. lia.
Qed.

Lemma distintos_historico_pop : mantem objetos_distintos historico_pop.
Proof.
  intros [w [[h|] b] evs n] [Hal Hnd]; cbn in *; [|split; assumption].
  unfold historico_alocado, Py.pop in *. cbn in *.
  destruct (rev h) as [|m r] eqn:Hr; cbn; [split; assumption|].
  assert (Hh : h = (rev r ++ [m])%list)
    by (rewrite <- (rev_involutive h), Hr; reflexivity).
  rewrite Hh in Hal, Hnd. apply Forall_app in Hal. split; [exact (proj1 Hal)|].
  rewrite map_app in Hnd. exact (NoDup_app_remove_r _ _ Hnd).
Qed.

Lemma distintos_percorrer_links (links : list string) :
  forall documento, mantem objetos_distintos (percorrer_links links documento).
Proof.
  induction links as [|link resto IH]; intros documento; cbn [percorrer_links].
  - apply distintos_ret.
  - apply mantem_bind; [|exact IH].
    apply mantem_try_except.
    + apply mantem_bind; [apply distintos_lift|]. intros id.
      apply mantem_bind; [apply distintos_chamar|]. intros t. apply distintos_ret.
    + intros e. apply mantem_bind; [apply distintos_emitir|]. intros _. apply distintos_ret.
Qed.

Lemma distintos_exibir (h : list Mensagem) : mantem objetos_distintos (exibir h).
Proof.
  induction h as [|m h IH]; cbn [exibir].
  - apply distintos_ret.
  - apply mantem_bind; [apply distintos_emitir | intros _; exact IH].
Qed.

Create HintDb distintos.
#[local] Hint Resolve distintos_ret distintos_raise distintos_lift distintos_emitir
  distintos_chamar distintos_ler_sessao distintos_ler_historico
  distintos_ler_base_vetores distintos_gravar_base_vetores distintos_historico_vazio
  distintos_historico_append distintos_historico_pop distintos_percorrer_links
  distintos_exibir : distintos.

Ltac distintos_passos :=
  repeat first
    [ solve [auto with distintos]
    | apply mantem_bind; [|intros ?]
    | match goal with
      | |- mantem _ (match ?x with _ => _ end) => destruct x
      | |- mantem _ (if ?x then _ else _) => destruct x
      end ].

Lemma distintos_main (e : Entrada) : mantem objetos_distintos (main e).
Proof.
  unfold main, processar_videos, responder, obter_transcricao_youtube,
    obter_base_vetores_dos_textos, AIMessage, HumanMessage.
  distintos_passos.
Qed.

(** X17.  In every state a session goes through, the messages of the
    history are distinct objects: no message object is in the history
    twice, and each was allocated by an earlier constructor call. *)
Theorem alcancavel_objetos_distintos (s : Estado) :
  alcancavel s -> objetos_distintos s.
Proof.
  induction 1 as [w|e s _ IH].
  - split; constructor.
  - now apply distintos_main.
Qed.

End Distintos.

(** * The further properties on the concrete collaborators *)

Section CasosExtras.

(** X7 on the first press of the button on a good link. *)
Lemma processar_reconstroi_indice_exemplo :
  fst (main (Exemplo.clicar_processar Exemplo.link_bom) (Exemplo.inicial 0)) = inr tt
  /\ indice (Exemplo.processada 0) = Some ["ola mundo "].
Proof.
  destruct (@processar_reconstroi_indice Exemplo.colaboradores Exemplo.link_bom
              (Exemplo.inicial 0) ["ola mundo "] ["ola mundo "] 0 0 eq_refl eq_refl)
    as (H1 & H2 & _).
  split; [exact H1 | exact H2].
Defined.

(** X8 on a press of the button with an empty text area: no chunk, and
    the index builder raises. *)
Lemma processar_falha_mantem_indice_exemplo :
  fst (main (Exemplo.clicar_processar "") (Exemplo2.processada 0)) = inl IndexError
  /\ indice (snd (main (Exemplo.clicar_processar "") (Exemplo2.processada 0)))
     = Some ["ola mundo "]
  /\ List.length
       (conversa (snd (main (Exemplo.clicar_processar "") (Exemplo2.processada 0)))) = 2.
Proof.
  destruct (@processar_falha_mantem_indice Exemplo2.colaboradores ""
              (Exemplo2.processada 0) IndexError 0
              (or_intror (ex_intro _ [] (ex_intro _ 0 (conj eq_refl eq_refl)))))
    as (H1 & H2 & H3 & _).
  split; [exact H1|]. split; [exact H2|].
  exact (f_equal (@List.length Mensagem) H3).
Defined.

(** X9 on a link whose transcript cannot be retrieved. *)
Lemma processar_documento_vazio_exemplo :
  exists resto,
    eventos (snd (main (Exemplo.clicar_processar Exemplo.link_ruim) (Exemplo.inicial 0)))
    = ([ EvGetTranscript "XYZ" idiomas;
         EvWarning (texto_aviso Exemplo.link_ruim
                      (ErroExterno "Could not retrieve a transcript"));
         EvSplitText divisor_texto "" ]
       ++ resto)%list.
Proof.
  destruct (@processar_documento_vazio Exemplo.colaboradores Exemplo.link_ruim
              (Exemplo.inicial 0)) as [resto H].
  - intros link x [E|[]]. inversion E. eexists. reflexivity.
  - exists resto. exact H.
Defined.

(** X10 on a new session. *)
Lemma sem_indice_nada_acontece_exemplo :
  main (Exemplo.perguntar "O que diz?") (Exemplo.inicial 1)
  = (inr tt, inicializada (Exemplo.inicial 1)).
Proof.
  exact (@sem_indice_nada_acontece Exemplo.colaboradores "" (Some "O que diz?")
           (Exemplo.inicial 1) eq_refl).
Defined.

(** X11 on the question the search fails on. *)
Lemma falha_da_busca_nao_altera_exemplo :
  fst (main (Exemplo.perguntar "falha") (Exemplo2.processada 1))
  = inl (ErroExterno "search failed")
  /\ conversa (snd (main (Exemplo.perguntar "falha") (Exemplo2.processada 1)))
     = conversa (Exemplo2.processada 1).
Proof.
  destruct (@falha_da_busca_nao_altera Exemplo2.colaboradores "" "falha"
              (Exemplo2.processada 1) ["ola mundo "] 1 (ErroExterno "search failed")
              eq_refl ltac:(discriminate) eq_refl)
    as (H1 & H2 & _).
  split; [exact H1 | exact H2].
Defined.

(** X12 on the session where the chat model fails. *)
Lemma prompt_deixado_e_exibido_exemplo :
  In (EvChatMessage "human"
        (prompt_de [{| page_content := "ola mundo " |}] "O que diz?"))
     (baloes ([Exemplo.saudacao_de 0]
              ++ [{| oid := 1; papel := Human;
                     content := prompt_de [{| page_content := "ola mundo " |}]
                                  "O que diz?" |}])%list).
Proof.
  exact (proj2 (proj2
    (@prompt_deixado_e_exibido Exemplo.colaboradores "" "" "O que diz?"
       (Exemplo.processada 0) [Exemplo.saudacao_de 0] ["ola mundo "]
       [{| page_content := "ola mundo " |}] 0 0 (ErroExterno "rate limit")
       eq_refl eq_refl ltac:(discriminate) eq_refl eq_refl))).
Defined.

(** X15 and X17 on the session after a press of the button and a
    question. *)
Lemma alcancavel_exemplo :
  alcancavel (Exemplo.apos (Exemplo.perguntar "O que diz?") (Exemplo.processada 1)).
Proof.
  apply alc_main. apply alc_main. exact (@alc_nova Exemplo.colaboradores 1).
Qed.

Lemma alcancavel_saudacao_primeiro_exemplo :
  saudacao_primeiro
    (Exemplo.apos (Exemplo.perguntar "O que diz?") (Exemplo.processada 1)).
Proof.
  exact (alcancavel_saudacao_primeiro _ alcancavel_exemplo).
Defined.

Lemma alcancavel_objetos_distintos_exemplo :
  objetos_distintos
    (Exemplo.apos (Exemplo.perguntar "O que diz?") (Exemplo.processada 1)).
Proof.
  exact (alcancavel_objetos_distintos _ alcancavel_exemplo).
Defined.

(** X16 on a completed cycle. *)
Lemma main_exibe_conversa_exemplo :
  exists antes,
    eventos (Exemplo.apos (Exemplo.perguntar "O que diz?") (Exemplo.processada 1))
    = (antes
       ++ baloes (conversa (Exemplo.apos (Exemplo.perguntar "O que diz?")
                              (Exemplo.processada 1))))%list.
Proof.
  exact (@main_exibe_conversa Exemplo.colaboradores (Exemplo.perguntar "O que diz?")
           (Exemplo.processada 1) eq_refl ltac:(discriminate)).
Defined.

End CasosExtras.
